(** * f1-elo: the rating engine and the rating store

    A shallow embedding of [elo_calculator.py] (the engine, the collector's
    loops, the store and a whole run), of [elo.py] (the stand-alone script)
    and of the main page of [app.py], and the properties of the specification
    and of the code that concern them.  What lies outside the repository (the
    schedule, the two adaptors' answers, the order chosen by ORDER BY and by
    [sort_values], the clock) is a parameter.

    Numbers.  In the engine Python floats are idealised as real numbers,
    extended with the not-a-number value that [np.mean] returns on an empty
    list; [10 ** x] is the real power [Rpower 10 x].  Rounding and overflow
    (the [OverflowError] of [10 ** x] on a rating gap of some 123300 points)
    are outside that model: its numbers are the real values of the formulas.
    The actual score, the one number the specification gives an exact
    identity for, is embedded a second time on IEEE doubles (module
    [Binary64]).

    State.  [self.ratings] is a Python dict: an association list in insertion
    order.  [update_ratings] mutates it row after row and may raise, so the
    code is written in a small state-and-exception monad whose state is the
    engine object. *)

From Stdlib Require Import Reals Lra Lia ZArith List String Permutation Bool.
From Stdlib Require Floats Uint63.
From stdpp Require Import gmap strings.
Import ListNotations.

#[local] Open Scope string_scope.
#[local] Open Scope list_scope.

(** ** Python values and arithmetic *)

Module Py.

(** A float: a real number, or NaN. *)
Inductive pyfloat : Type :=
| Fin (r : R)
| NaN.

Definition lift2 (f : R -> R -> R) (a b : pyfloat) : pyfloat :=
  match a, b with
  | Fin x, Fin y => Fin (f x y)
  | _, _ => NaN
  end.

Definition fadd : pyfloat -> pyfloat -> pyfloat := lift2 Rplus.
Definition fsub : pyfloat -> pyfloat -> pyfloat := lift2 Rminus.
Definition fmul : pyfloat -> pyfloat -> pyfloat := lift2 Rmult.
(** Division of floats, used only where the divisor is a positive constant or
    [1 + 10 ** x]; the divisions that can fail are [truediv] and [len_div]. *)
Definition fdiv : pyfloat -> pyfloat -> pyfloat := lift2 Rdiv.
(** [a ** b] for a positive base, as a real power: Python's [OverflowError]
    on a result beyond the doubles is not modelled. *)
Definition fpow : pyfloat -> pyfloat -> pyfloat := lift2 Rpower.

Definition is_nan (a : pyfloat) : bool :=
  match a with NaN => true | Fin _ => false end.

Definition fsum (l : list pyfloat) : pyfloat := fold_left fadd l (Fin 0%R).

(** Exceptions the engine can raise. *)
Inductive exn : Type :=
| ZeroDivisionError
| KeyError (k : string).

Inductive outcome (A : Type) : Type :=
| Return (a : A)
| Raise (e : exn).
Arguments Return {A} a.
Arguments Raise {A} e.

(** A dict with string keys, in insertion order. *)
Definition dict (V : Type) : Type := list (string * V).

Section Dict.
Context {V : Type}.

Fixpoint dict_get (d : dict V) (k : string) : option V :=
  match d with
  | [] => None
  | (k', v) :: d' => if String.eqb k' k then Some v else dict_get d' k
  end.

(** [k in d] *)
Definition dict_contains (d : dict V) (k : string) : bool :=
  match dict_get d k with Some _ => true | None => false end.

(** [d[k] = v]: an existing key keeps its place, a new one goes last. *)
Fixpoint dict_set (d : dict V) (k : string) (v : V) : dict V :=
  match d with
  | [] => [(k, v)]
  | (k', v') :: d' =>
      if String.eqb k' k then (k', v) :: d' else (k', v') :: dict_set d' k v
  end.

Definition keys (d : dict V) : list string := map fst d.
End Dict.

(** [Series.unique()]: the distinct values in order of first appearance. *)
Fixpoint unique_from (seen l : list string) : list string :=
  match l with
  | [] => []
  | x :: t =>
      if existsb (String.eqb x) seen then unique_from seen t
      else x :: unique_from (x :: seen) t
  end.

Definition unique (l : list string) : list string := unique_from [] l.

(** One row of a result frame; [None] is a missing cell (None or NaN). *)
Record row : Type := Row { Driver : option string; Position : option Z }.

Definition DataFrame : Type := list row.

(** [dropna(subset=['Driver', 'Position'])]: the rows left have both cells;
    [Position] is read through [int(...)], so it is kept as an integer. *)
Definition dropna (df : DataFrame) : list (string * Z) :=
  flat_map (fun r =>
    match Driver r, Position r with
    | Some d, Some p => [(d, p)]
    | _, _ => []
    end) df.

(** [race_results[race_results['Driver'] != driver]] *)
Definition opponents_of (race_results : list (string * Z)) (driver : string)
  : list (string * Z) :=
  List.filter (fun o => negb (String.eqb (fst o) driver)) race_results.

End Py.
Export Py.

(** ** The state-and-exception monad of the engine *)

(** The engine object: [__init__] sets the three fields. *)
Record F1EloRating : Type := Engine {
  ratings : dict pyfloat;
  initial_rating : R;
  k_factor : R
}.

(** [F1EloRating()] with the default arguments. *)
Definition new_engine : F1EloRating :=
  {| ratings := []; initial_rating := 1500; k_factor := 24 |}.

Definition with_ratings (self : F1EloRating) (d : dict pyfloat) : F1EloRating :=
  {| ratings := d; initial_rating := initial_rating self; k_factor := k_factor self |}.

Definition py (A : Type) : Type := F1EloRating -> outcome A * F1EloRating.

Definition ret {A} (a : A) : py A := fun self => (Return a, self).
Definition raise {A} (e : exn) : py A := fun self => (Raise e, self).
Definition bind {A B} (c : py A) (k : A -> py B) : py B :=
  fun self =>
    match c self with
    | (Return a, self') => k a self'
    | (Raise e, self') => (Raise e, self')
    end.

Declare Scope py_scope.
Delimit Scope py_scope with py.
Notation "x <- c ;; k" := (bind c (fun x => k))
  (at level 100, c at next level, right associativity) : py_scope.
Notation "c ;;; k" := (bind c (fun _ => k))
  (at level 100, right associativity) : py_scope.
#[local] Open Scope py_scope.

(** [for x in l: body(x)]; an exception leaves the loop. *)
Fixpoint for_each {A} (l : list A) (body : A -> py unit) : py unit :=
  match l with
  | [] => ret tt
  | x :: t => body x ;;; for_each t body
  end.

(** A list comprehension whose element expression can raise. *)
Fixpoint comprehension {A B} (l : list A) (f : A -> py B) : py (list B) :=
  match l with
  | [] => ret []
  | x :: t => y <- f x ;; ys <- comprehension t f ;; ret (y :: ys)
  end.

(** [self.ratings[k]] *)
Definition getitem (k : string) : py pyfloat :=
  fun self =>
    match dict_get (ratings self) k with
    | Some v => (Return v, self)
    | None => (Raise (KeyError k), self)
    end.

(** [self.ratings.get(k, default)] *)
Definition get_default (k : string) (default : pyfloat) : py pyfloat :=
  fun self =>
    match dict_get (ratings self) k with
    | Some v => (Return v, self)
    | None => (Return default, self)
    end.

(** [self.ratings[k] = v] *)
Definition setitem (k : string) (v : pyfloat) : py unit :=
  fun self => (Return tt, with_ratings self (dict_set (ratings self) k v)).

(** [k in self.ratings] *)
Definition contains (k : string) : py bool :=
  fun self => (Return (dict_contains (ratings self) k), self).

Definition get_initial_rating : py R := fun self => (Return (initial_rating self), self).
Definition get_k_factor : py R := fun self => (Return (k_factor self), self).

(** [a / b] on integers: true division, [ZeroDivisionError] when [b = 0]. *)
Definition truediv (a b : Z) : py R :=
  if (b =? 0)%Z then raise ZeroDivisionError else ret (IZR a / IZR b)%R.

(** [1 / (1 + 10 ** ((opponent - driver) / 400))] *)
Definition win_probability (opponent driver : pyfloat) : pyfloat :=
  fdiv (Fin 1) (fadd (Fin 1) (fpow (Fin 10) (fdiv (fsub opponent driver) (Fin 400)))).

(** The first loop of [update_ratings], the same in both files. *)
Definition initialize_new_drivers (race_results : list (string * Z)) : py unit :=
  for_each (unique (map fst race_results)) (fun driver =>
    known <- contains driver ;;
    if known then ret tt
    else r0 <- get_initial_rating ;; setitem driver (Fin r0)).

(** ** elo_calculator.py: the engine of the web application *)

Module EloCalculator.

(** [np.mean]: NaN on an empty list (with a warning), else the sum over the
    length. *)
Definition np_mean (l : list pyfloat) : pyfloat :=
  match l with
  | [] => NaN
  | _ :: _ => fdiv (fsum l) (Fin (INR (length l)))
  end.

(** [1 - (position - 1) / (total_drivers - 1)] *)
Definition actual_score_of (position total_drivers : Z) : py R :=
  q <- truediv (position - 1) (total_drivers - 1) ;; ret (1 - q)%R.

(** [np.mean([1 / (1 + 10 ** ((self.ratings[opp] - self.ratings[driver]) / 400))
              for opp in opponents['Driver']])] *)
Definition expected_score_of (opponents : list (string * Z)) (driver : string)
  : py pyfloat :=
  scores <- comprehension (map fst opponents) (fun opp =>
              ro <- getitem opp ;;
              rd <- getitem driver ;;
              ret (win_probability ro rd)) ;;
  ret (np_mean scores).

(** The body of the loop over the rows of the event. *)
Definition update_row (race_results : list (string * Z)) (total_drivers : Z)
    (r : string * Z) : py unit :=
  let driver := fst r in
  let position := snd r in
  let opponents := opponents_of race_results driver in
  actual_score <- actual_score_of position total_drivers ;;
  expected_score <- expected_score_of opponents driver ;;
  rd <- getitem driver ;;
  k <- get_k_factor ;;
  setitem driver (fadd rd (fmul (Fin k) (fsub (Fin actual_score) expected_score))).

Definition update_ratings (race_results : DataFrame) : py unit :=
  let race_results := dropna race_results in
  if (length race_results <? 2)%nat then ret tt
  else
    initialize_new_drivers race_results ;;;
    let total_drivers := Z.of_nat (length race_results) in
    for_each race_results (update_row race_results total_drivers).

(** The loop of [process_historical_data] over the events in order. *)
Definition process_events (events : list DataFrame) : py unit :=
  for_each events update_ratings.

(** [get_driver_ratings]: the snapshot as a frame indexed by driver, in the
    order that [sort_values('Elo Rating', ascending=False)] gives; the sort
    is left to pandas. *)
Definition get_driver_ratings
    (sort_values_desc : list (string * pyfloat) -> list (string * pyfloat))
  : py (list (string * pyfloat)) :=
  fun self => (Return (sort_values_desc (ratings self)), self).

End EloCalculator.

(** ** elo.py: the stand-alone script *)

Module Elo.

(** [calculate_expected_score]: the sum, over the opponents, of the chance
    that the driver beats each of them.  It does not read [self]. *)
Definition calculate_expected_score (driver_rating : pyfloat)
    (opponent_ratings : list pyfloat) : pyfloat :=
  let expected_scores :=
    map (fun opponent => win_probability opponent driver_rating) opponent_ratings in
  fsum expected_scores.

Definition normalize_race_position (position total_drivers : Z) : py R :=
  let position := Z.max 1 (Z.min position total_drivers) in
  q <- truediv (position - 1) (total_drivers - 1) ;; ret (1 - q)%R.

(** [sum(l) / len(l)]: [ZeroDivisionError] on an empty list. *)
Definition len_div (l : list pyfloat) : py pyfloat :=
  if (length l =? 0)%nat then raise ZeroDivisionError
  else ret (fdiv (fsum l) (Fin (INR (length l)))).

(** [[1 / (1 + 10 ** ((self.ratings.get(opponent['Driver'], self.initial_rating)
                     - self.ratings[driver]) / 400))
      for _, opponent in opponents.iterrows()]] *)
Definition expected_scores_of (opponents : list (string * Z)) (driver : string)
  : py (list pyfloat) :=
  comprehension opponents (fun opponent =>
    r0 <- get_initial_rating ;;
    ro <- get_default (fst opponent) (Fin r0) ;;
    rd <- getitem driver ;;
    ret (win_probability ro rd)).

Definition update_row (race_results : list (string * Z)) (total_drivers : Z)
    (r : string * Z) : py unit :=
  let driver := fst r in
  let position := snd r in
  let opponents := opponents_of race_results driver in
  actual_score <- normalize_race_position position total_drivers ;;
  expected_scores <- expected_scores_of opponents driver ;;
  expected_score <- len_div expected_scores ;;
  k <- get_k_factor ;;
  let rating_change := fmul (Fin k) (fsub (Fin actual_score) expected_score) in
  rd <- getitem driver ;;
  setitem driver (fadd rd rating_change).

Definition update_ratings (race_results : DataFrame) : py unit :=
  let race_results := dropna race_results in
  if (length race_results <? 2)%nat then ret tt
  else
    initialize_new_drivers race_results ;;;
    let total_drivers := Z.of_nat (length race_results) in
    for_each race_results (update_row race_results total_drivers).

(** [get_driver_ratings]: as in [elo_calculator.py], but the rows whose
    rating is NaN are dropped before the sort. *)
Definition get_driver_ratings
    (sort_values_desc : list (string * pyfloat) -> list (string * pyfloat))
  : py (list (string * pyfloat)) :=
  fun self =>
    let ratings_df := ratings self in
    let ratings_df := List.filter (fun r => negb (is_nan (snd r))) ratings_df in
    (Return (sort_values_desc ratings_df), self).

End Elo.

(** ** The actual score on IEEE doubles *)

Module Binary64.

(** An int as a double.  The ints of the formula are positions and field
    sizes; below [2 ^ 53] in magnitude the conversion is exact. *)
Definition of_int (z : Z) : PrimFloat.float :=
  if (z <? 0)%Z then PrimFloat.opp (PrimFloat.of_uint63 (Uint63.of_Z (- z)))
  else PrimFloat.of_uint63 (Uint63.of_Z z).

(** [a / b] on two ints: the correctly rounded quotient, which for operands
    below [2 ^ 53] is the division of the two doubles; [None] is
    [ZeroDivisionError]. *)
Definition truediv (a b : Z) : option PrimFloat.float :=
  if (b =? 0)%Z then None else Some (PrimFloat.div (of_int a) (of_int b)).

(** [elo_calculator.py]: [1 - (position - 1) / (total_drivers - 1)] *)
Definition actual_score (position total_drivers : Z) : option PrimFloat.float :=
  match truediv (position - 1) (total_drivers - 1) with
  | Some q => Some (PrimFloat.sub (of_int 1) q)
  | None => None
  end.

(** [elo.py]: the same after the clamp. *)
Definition normalize_race_position (position total_drivers : Z)
  : option PrimFloat.float :=
  let position := Z.max 1 (Z.min position total_drivers) in
  match truediv (position - 1) (total_drivers - 1) with
  | Some q => Some (PrimFloat.sub (of_int 1) q)
  | None => None
  end.





End Binary64.

(** ** elo_calculator.py: the rating store *)

Module DatabaseManager.

(** A row of [driver_ratings] without its key [driver_name]:
    [elo_rating REAL] (SQLite stores a NaN as NULL, both are [NaN] here) and
    [last_updated TEXT]. *)
Record db_row : Type := DbRow { elo_rating : pyfloat; last_updated : string }.

(** The table: [driver_name] is its primary key. *)
Abbreviation table := (gmap string db_row).

(** [INSERT OR REPLACE INTO driver_ratings VALUES (?, ?, ?)] *)
Definition insert_or_replace (driver : string) (rating : pyfloat)
    (time : string) (t : table) : table :=
  <[driver := DbRow rating time]> t.

(** [save_ratings]: [current_time] is read from the clock once, before the
    loop over the rows of the frame. *)
Definition save_ratings (ratings_df : list (string * pyfloat))
    (current_time : string) (t : table) : table :=
  fold_left (fun t row => insert_or_replace (fst row) (snd row) current_time t)
            ratings_df t.

(** What a cursor hands back in a cell. *)
Inductive pyvalue : Type :=
| PyNone
| PyStr (s : string).

(** The larger of two TEXT values (bytewise order). *)
Definition text_max (a b : string) : string := if String.leb a b then b else a.

(** [MAX(last_updated)]: NULL when there is no row. *)
Definition max_last_updated (t : table) : pyvalue :=
  match map (fun kv => last_updated (snd kv)) (map_to_list t) with
  | [] => PyNone
  | s :: l => PyStr (fold_left text_max l s)
  end.

(** [SELECT MAX(last_updated) FROM driver_ratings]: an aggregate query
    without GROUP BY yields exactly one row, a 1-tuple. *)
Definition select_max_last_updated (t : table) : list (list pyvalue) :=
  [[max_last_updated t]].

(** [cursor.fetchone()] *)
Definition fetchone {A} (rows : list A) : option A := head rows.

(** [result[0] if result else "Never"]: [None] and the empty tuple are falsy. *)
Definition get_last_update_time (t : table) : pyvalue :=
  let result := fetchone (select_max_last_updated t) in
  match result with
  | Some (cell :: _) => cell
  | Some [] | None => PyStr "Never"
  end.

Section Queries.
(** [ORDER BY elo_rating DESC], left to the database. *)
Variable order_by_elo_rating_desc :
  list (string * pyfloat) -> list (string * pyfloat).

(** [get_ratings]: the rows of
    [SELECT driver_name, elo_rating ... ORDER BY elo_rating DESC]; with no
    row the result is the empty frame. *)
Definition get_ratings (t : table) : list (string * pyfloat) :=
  order_by_elo_rating_desc
    (map (fun kv => (fst kv, elo_rating (snd kv))) (map_to_list t)).

(** [set_index('Driver')['Elo Rating'].to_dict()] *)
Definition to_dict (rows : list (string * pyfloat)) : dict pyfloat :=
  fold_left (fun d row => dict_set d (fst row) (snd row)) rows [].

(** The start of [process_historical_data]: the ratings of a new engine are
    replaced by the stored ones unless the frame is empty.  A NULL rating is
    read as NaN. *)
Definition load_existing_ratings (t : table) : py unit :=
  fun elo =>
    let existing_ratings := get_ratings t in
    match existing_ratings with
    | [] => (Return tt, elo)
    | _ :: _ => (Return tt, with_ratings elo (to_dict existing_ratings))
    end.
End Queries.

End DatabaseManager.

(** ** elo_calculator.py: the collector and a whole run *)

Module F1DataCollector.

(** A row of the frame [all_races]: the columns [Driver] and [Position] of a
    result row, and [Year] and [RaceNumber]. *)
Record race_row : Type := RaceRow { result : row; Year : Z; RaceNumber : Z }.

(** [race_results['Year'] = year; race_results['RaceNumber'] = race_num] *)
Definition tag (year race_num : Z) (race_results : DataFrame) : list race_row :=
  map (fun r => RaceRow r year race_num) race_results.

(** [range(1, n + 1)] *)
Definition race_numbers (n : nat) : list Z := map Z.of_nat (seq 1 n).

(** [range(start_year, current_year + 1)] *)
Definition years (start_year current_year : Z) : list Z :=
  map (fun i => (start_year + Z.of_nat i)%Z)
      (seq 0 (Z.to_nat (current_year + 1 - start_year))).

Section Collector.
(** The outside world: [len(schedule)] for a year ([None] when fetching the
    schedule raises), and the two adaptors, which catch their own exceptions
    and always return a frame. *)
Variable schedule_len : Z -> option nat.
Variable _collect_with_fastf1 : Z -> Z -> DataFrame.
Variable _collect_with_ergast : Z -> Z -> DataFrame.

Definition collect_race_results (year race_number : Z) : DataFrame :=
  if (year >=? 2018)%Z then _collect_with_fastf1 year race_number
  else _collect_with_ergast year race_number.

(** [_process_year]: an exception (from the schedule) gives the empty frame
    for the whole year. *)
Definition _process_year (year : Z) : list race_row :=
  match schedule_len year with
  | None => []
  | Some n =>
      fold_left
        (fun all_races race_num =>
           let race_results := collect_race_results year race_num in
           match race_results with
           | [] => all_races
           | _ :: _ => all_races ++ tag year race_num race_results
           end)
        (race_numbers n) []
  end.

Definition get_all_historical_data (start_year current_year : Z) : list race_row :=
  fold_left
    (fun all_results year =>
       let year_results := _process_year year in
       match year_results with
       | [] => all_results
       | _ :: _ => all_results ++ year_results
       end)
    (years start_year current_year) [].
End Collector.

End F1DataCollector.

(** [all_races.groupby(['Year', 'RaceNumber'])]: the groups come in
    increasing order of their key, each with its rows in frame order. *)
Definition key_of (r : F1DataCollector.race_row) : Z * Z :=
  (F1DataCollector.Year r, F1DataCollector.RaceNumber r).

Definition key_ltb (a b : Z * Z) : bool :=
  (fst a <? fst b)%Z || ((fst a =? fst b)%Z && (snd a <? snd b)%Z).

Definition key_eqb (a b : Z * Z) : bool :=
  (fst a =? fst b)%Z && (snd a =? snd b)%Z.

Fixpoint insert_key (k : Z * Z) (l : list (Z * Z)) : list (Z * Z) :=
  match l with
  | [] => [k]
  | x :: t =>
      if key_ltb k x then k :: x :: t
      else if key_eqb k x then x :: t
      else x :: insert_key k t
  end.

Definition group_keys (rows : list F1DataCollector.race_row) : list (Z * Z) :=
  fold_right insert_key [] (map key_of rows).

Definition groupby (rows : list F1DataCollector.race_row)
  : list ((Z * Z) * list F1DataCollector.race_row) :=
  map (fun k => (k, List.filter (fun r => key_eqb (key_of r) k) rows))
      (group_keys rows).

Section Run.
Variable schedule_len : Z -> option nat.
Variable _collect_with_fastf1 : Z -> Z -> DataFrame.
Variable _collect_with_ergast : Z -> Z -> DataFrame.
(** [ORDER BY elo_rating DESC] and [sort_values], left to the libraries. *)
Variable order_by : list (string * pyfloat) -> list (string * pyfloat).
Variable sort_values_desc : list (string * pyfloat) -> list (string * pyfloat).
(** The clock: [datetime.now().year] when the collector is made, and
    [datetime.now().isoformat()] when the ratings are saved. *)
Variable current_year : Z.
Variable current_time : string.

(** The loop of [process_historical_data] over the groups. *)
Definition process_races (all_races : list F1DataCollector.race_row) : py unit :=
  for_each (groupby all_races) (fun g =>
    let race_group := snd g in
    EloCalculator.update_ratings (map F1DataCollector.result race_group)).

(** [process_historical_data]: from the table before the run to the table
    after it and the frame returned; an exception leaves the table as it
    is. *)
Definition process_historical_data (start_year : Z)
    (db : gmap string DatabaseManager.db_row)
  : gmap string DatabaseManager.db_row * outcome (list (string * pyfloat)) :=
  let elo := snd (DatabaseManager.load_existing_ratings order_by db new_engine) in
  let all_races :=
    F1DataCollector.get_all_historical_data
      schedule_len _collect_with_fastf1 _collect_with_ergast start_year current_year in
  match all_races with
  | [] => (db, fst (EloCalculator.get_driver_ratings sort_values_desc elo))
  | _ :: _ =>
      match process_races all_races elo with
      | (Raise e, _) => (db, Raise e)
      | (Return _, elo) =>
          match EloCalculator.get_driver_ratings sort_values_desc elo with
          | (Raise e, _) => (db, Raise e)
          | (Return ratings_df, elo) =>
              (DatabaseManager.save_ratings ratings_df current_time db,
               fst (EloCalculator.get_driver_ratings sort_values_desc elo))
          end
      end
  end.
End Run.

(** ** app.py: the main page *)

Module App.

(** What [index] hands to the template: the rows of [get_ratings] and the
    value of [get_last_update_time]. *)
Record page : Type := Page {
  page_ratings : list (string * pyfloat);
  page_last_updated : DatabaseManager.pyvalue
}.

Section Index.
Variable schedule_len : Z -> option nat.
Variable _collect_with_fastf1 : Z -> Z -> DataFrame.
Variable _collect_with_ergast : Z -> Z -> DataFrame.
Variable order_by : list (string * pyfloat) -> list (string * pyfloat).
Variable sort_values_desc : list (string * pyfloat) -> list (string * pyfloat).
Variable current_year : Z.
Variable current_time : string.

(** [index]: a run is started only when the table has no row; an exception
    gives the error page. *)
Definition index (db : gmap string DatabaseManager.db_row)
  : gmap string DatabaseManager.db_row * outcome page :=
  let ratings := DatabaseManager.get_ratings order_by db in
  match ratings with
  | [] =>
      match process_historical_data schedule_len _collect_with_fastf1
              _collect_with_ergast order_by sort_values_desc
              current_year current_time 2018 db with
      | (db, Raise e) => (db, Raise e)
      | (db, Return _) =>
          let ratings := DatabaseManager.get_ratings order_by db in
          let last_updated := DatabaseManager.get_last_update_time db in
          (db, Return (Page ratings last_updated))
      end
  | _ :: _ =>
      let last_updated := DatabaseManager.get_last_update_time db in
      (db, Return (Page ratings last_updated))
  end.
End Index.

End App.

(** ** elo.py: the script *)

Module EloMain.

(** [try: ... except Exception: ...; continue]: the exception is printed and
    dropped, the state stays as the failing statement left it. *)
Definition try_except (body : py unit) : py unit :=
  fun self =>
    match body self with
    | (Return _, self) => (Return tt, self)
    | (Raise _, self) => (Return tt, self)
    end.

Section Main.
(** The outside world, as for [elo_calculator.py]: [len(schedule)] for a year
    ([None] when fetching it raises) and the two adaptors. *)
Variable schedule_len : Z -> option nat.
Variable _collect_with_fastf1 : Z -> Z -> DataFrame.
Variable _collect_with_ergast : Z -> Z -> DataFrame.

(** The body of the loop over the races of a year. *)
Definition process_race (year race_number : Z) : py unit :=
  let race_result :=
    F1DataCollector.collect_race_results _collect_with_fastf1 _collect_with_ergast
      year race_number in
  match race_result with
  | [] => ret tt
  | _ :: _ => Elo.update_ratings race_result
  end.

(** The body of the loop over the years: one [try] around the schedule and
    all the races of the year. *)
Definition process_year (year : Z) : py unit :=
  try_except
    (match schedule_len year with
     | None => ret tt
     | Some total_races =>
         for_each (F1DataCollector.race_numbers total_races) (process_race year)
     end).

(** [main], up to the ranking: the years 2014 to 2025. *)
Definition main : py unit :=
  for_each (F1DataCollector.years 2014 2025) process_year.
End Main.

End EloMain.

(** ** Auxiliary definitions: what the loops compute, and the events used
    as examples *)

(** The rating a dict holds for a key (NaN stands in for an absent key, which
    the engine never reads once the new drivers are initialised). *)
Definition rating_in (d : dict pyfloat) (k : string) : pyfloat :=
  match dict_get d k with Some v => v | None => NaN end.

(** The dict the first loop of [update_ratings] leaves. *)
Definition init_dict (r0 : R) (drivers : list string) (d : dict pyfloat)
  : dict pyfloat :=
  fold_left (fun d k => if dict_contains d k then d else dict_set d k (Fin r0))
            drivers d.

(** The second loop of both files folds a step [d[driver] = F d row] over the
    rows. *)
Definition rows_fold (F : dict pyfloat -> string * Z -> pyfloat)
    (l : list (string * Z)) (d : dict pyfloat) : dict pyfloat :=
  fold_left (fun d r => dict_set d (fst r) (F d r)) l d.

(** The rating the loop body of [elo_calculator.py] stores for row [r] when
    it reads the dict [d]. *)
Definition ec_rating (K : R) (rr : list (string * Z)) (N : Z)
    (d : dict pyfloat) (r : string * Z) : pyfloat :=
  fadd (rating_in d (fst r))
       (fmul (Fin K)
          (fsub (Fin (1 - IZR (snd r - 1) / IZR (N - 1)))
                (EloCalculator.np_mean
                   (map (fun o => win_probability (rating_in d o) (rating_in d (fst r)))
                        (map fst (opponents_of rr (fst r))))))).

(** The dict the second loop of [elo_calculator.py] leaves after the rows [l]
    of the event [rr]. *)
Definition ec_rows (K : R) (rr : list (string * Z)) (N : Z)
    (l : list (string * Z)) (d : dict pyfloat) : dict pyfloat :=
  rows_fold (ec_rating K rr N) l d.

(** The dict [elo_calculator.py]'s [update_ratings] leaves. *)
Definition ec_update (self : F1EloRating) (ev : DataFrame) : dict pyfloat :=
  let rr := dropna ev in
  if (length rr <? 2)%nat then ratings self
  else ec_rows (k_factor self) rr (Z.of_nat (length rr)) rr
         (init_dict (initial_rating self) (unique (map fst rr)) (ratings self)).

(** The dict the loop over the events leaves. *)
Definition ec_process (self : F1EloRating) (events : list DataFrame)
  : dict pyfloat :=
  fold_left (fun d ev => ec_update (with_ratings self d) ev) events (ratings self).

(** The rating the loop body of [elo.py] stores for row [r] when it reads the
    dict [d] and the row has an opponent. *)
Definition elo_rating (K r0 : R) (rr : list (string * Z)) (N : Z)
    (d : dict pyfloat) (r : string * Z) : pyfloat :=
  let expected_scores :=
    map (fun o => win_probability
                    (match dict_get d (fst o) with Some v => v | None => Fin r0 end)
                    (rating_in d (fst r)))
        (opponents_of rr (fst r)) in
  fadd (rating_in d (fst r))
       (fmul (Fin K)
          (fsub (Fin (1 - IZR (Z.max 1 (Z.min (snd r) N) - 1) / IZR (N - 1)))
                (fdiv (fsum expected_scores) (Fin (INR (length expected_scores)))))).

(** The same for [elo.py]. *)
Definition elo_rows (K r0 : R) (rr : list (string * Z)) (N : Z)
    (l : list (string * Z)) (d : dict pyfloat) : dict pyfloat :=
  rows_fold (elo_rating K r0 rr N) l d.

(** The dict [elo.py]'s [update_ratings] leaves when it does not raise. *)
Definition elo_update (self : F1EloRating) (ev : DataFrame) : dict pyfloat :=
  let rr := dropna ev in
  if (length rr <? 2)%nat then ratings self
  else elo_rows (k_factor self) (initial_rating self) rr (Z.of_nat (length rr)) rr
         (init_dict (initial_rating self) (unique (map fst rr)) (ratings self)).

(** The competitors of the valid rows of an event. *)
Definition competitors (ev : DataFrame) : list string := map fst (dropna ev).

(** An event is processed when it passes the guard of [update_ratings];
    otherwise it is skipped. *)
Definition processed (ev : DataFrame) : Prop := (2 <= length (dropna ev))%nat.

Definition all_finite (d : dict pyfloat) : Prop :=
  forall k v, dict_get d k = Some v -> is_nan v = false.

Fixpoint Rsum (l : list R) : R :=
  match l with
  | [] => 0%R
  | x :: t => (x + Rsum t)%R
  end.

(** The positions [1 .. n]. *)
Definition positions (n : nat) : list Z := map Z.of_nat (seq 1 n).


(** [1 - (p - 1) / (N - 1)] *)
Definition linear_score (N p : Z) : R := (1 - IZR (p - 1) / IZR (N - 1))%R.

(** The update that the specification asks for: the loop body of
    [elo_calculator.py] computes every rating of the event from the ratings
    as they stood before the event (new competitors initialised), and the
    ratings are stored afterwards. *)
Definition update_from_snapshot (self : F1EloRating) (ev : DataFrame)
  : dict pyfloat :=
  let rr := dropna ev in
  if (length rr <? 2)%nat then ratings self
  else
    let before := init_dict (initial_rating self) (unique (map fst rr)) (ratings self) in
    fold_left
      (fun d r =>
         dict_set d (fst r)
           (ec_rating (k_factor self) rr (Z.of_nat (length rr)) before r))
      rr before.

(** An event whose second row has no position: two valid rows, the last of
    them at position 3. *)
Definition event_with_dropped_row : DataFrame :=
  [Row (Some "A") (Some 1%Z); Row (Some "B") None; Row (Some "C") (Some 3%Z)].

(** The event of the two-competitor scenario, and the same rows in the other
    order. *)
Definition two_driver_event : DataFrame :=
  [Row (Some "A") (Some 1%Z); Row (Some "B") (Some 2%Z)].

Definition two_driver_event_reordered : DataFrame :=
  [Row (Some "B") (Some 2%Z); Row (Some "A") (Some 1%Z)].

(** An event with one valid row: the second row has no position. *)
Definition one_valid_row_event : DataFrame :=
  [Row (Some "Sergio Perez") (Some 1%Z); Row (Some "Yuki Tsunoda") None].

(** An event whose two valid rows name the same competitor. *)
Definition duplicate_competitor_event : DataFrame :=
  [Row (Some "A") (Some 1%Z); Row (Some "A") (Some 2%Z)].

(** An event with two competitors and a row without a driver. *)
Definition event_with_missing_driver : DataFrame :=
  [Row (Some "A") (Some 1%Z); Row None (Some 2%Z); Row (Some "B") (Some 3%Z)].

(** A snapshot to save, and a table that holds another competitor. *)
Definition saved_frame : list (string * pyfloat) :=
  [("Max Verstappen", Fin 1600); ("Lando Norris", Fin 1550)].

Definition stored_table : gmap string DatabaseManager.db_row :=
  {["Kimi Raikkonen" := DatabaseManager.DbRow (Fin 1490) "2021-12-13T10:00:00"]}.

(** Evaluation of the engine on a concrete event, leaving the real-number
    expressions as they are. *)
Ltac eval_engine :=
  cbv -[Rplus Rminus Rmult Rdiv Rinv Rpower IZR Ropp Rlt Rle Rgt Rge].

(** ** Auxiliary definitions for the frame of a call and a whole run *)

(** [steps R c]: the state after [c] is related by [R] to the state before,
    whatever the outcome. *)
Definition steps {A} (R : F1EloRating -> F1EloRating -> Prop) (c : py A) : Prop :=
  forall st, R st (snd (c st)).

(** The rating of [d] and the two parameters are the same. *)
Definition same_at (d : string) (st st' : F1EloRating) : Prop :=
  dict_get (ratings st') d = dict_get (ratings st) d
  /\ initial_rating st' = initial_rating st
  /\ k_factor st' = k_factor st.

(** No key is lost. *)
Definition keeps_keys (st st' : F1EloRating) : Prop :=
  forall k, In k (keys (ratings st)) -> In k (keys (ratings st')).

(** [ascending lt l]: every element is [lt]-below all the later ones. *)
Fixpoint ascending {A} (lt : A -> A -> Prop) (l : list A) : Prop :=
  match l with
  | [] => True
  | x :: t => (forall y, In y t -> lt x y) /\ ascending lt t
  end.

Definition key_lt (a b : Z * Z) : Prop := key_ltb a b = true.

(** [not race_results.empty] *)
Definition not_empty (df : DataFrame) : bool :=
  match df with [] => false | _ :: _ => true end.

(** The races of the seasons [start_year .. current_year], season by season
    and round by round; a season whose schedule cannot be fetched has none. *)
Definition race_calendar (schedule_len : Z -> option nat)
    (start_year current_year : Z) : list (Z * Z) :=
  flat_map (fun year =>
              match schedule_len year with
              | None => []
              | Some n => map (pair year) (F1DataCollector.race_numbers n)
              end)
           (F1DataCollector.years start_year current_year).

(** A world with one season, 2024, of one race, whose frame is the
    two-competitor event; and a world whose schedule cannot be fetched. *)
Definition one_race_schedule (year : Z) : option nat :=
  if (year =? 2024)%Z then Some 1%nat else None.

Definition no_schedule (year : Z) : option nat := None.

Definition one_race_adaptor (year race_number : Z) : DataFrame := two_driver_event.

Definition no_adaptor (year race_number : Z) : DataFrame := [].

(** The rows of [all_races] that come from the race with key [k], when [c]
    gives the frame collected for each race. *)
Definition tagged (c : Z * Z -> DataFrame) (k : Z * Z)
  : list F1DataCollector.race_row :=
  F1DataCollector.tag (fst k) (snd k) (c k).

(** The frame collected for the race with key [(year, race_number)]. *)
Definition collected (fastf1 ergast : Z -> Z -> DataFrame) (k : Z * Z) : DataFrame :=
  F1DataCollector.collect_race_results fastf1 ergast (fst k) (snd k).

(** The engine after the load, the frames handed to [update_ratings], and the
    snapshot after the loop of a run. *)
Definition run_loaded (order_by : list (string * pyfloat) -> list (string * pyfloat))
    (db : gmap string DatabaseManager.db_row) : F1EloRating :=
  snd (DatabaseManager.load_existing_ratings order_by db new_engine).

Definition run_events (schedule_len : Z -> option nat)
    (fastf1 ergast : Z -> Z -> DataFrame) (current_year start_year : Z)
  : list DataFrame :=
  List.filter not_empty
    (map (collected fastf1 ergast) (race_calendar schedule_len start_year current_year)).

Definition run_final (schedule_len : Z -> option nat)
    (fastf1 ergast : Z -> Z -> DataFrame)
    (order_by : list (string * pyfloat) -> list (string * pyfloat))
    (current_year start_year : Z) (db : gmap string DatabaseManager.db_row)
  : dict pyfloat :=
  ec_process (run_loaded order_by db)
    (run_events schedule_len fastf1 ergast current_year start_year).

(** A season of two races whose first frame names one competitor twice. *)
Definition two_race_schedule (year : Z) : option nat :=
  if (year =? 2024)%Z then Some 2%nat else None.

Definition duplicate_adaptor (year race_number : Z) : DataFrame :=
  if (race_number =? 1)%Z then duplicate_competitor_event else two_driver_event.

(** ** Dictionaries: lookups, updates and keys *)

Section DictFacts.
Context {V : Type}.
Implicit Types (d : dict V) (k : string) (v : V).

Lemma dict_get_set_eq d k v : dict_get (dict_set d k v) k = Some v.
Proof.
  induction d as [|[k' v'] d IH]; simpl.
  - now rewrite String.eqb_refl.
  - destruct (String.eqb k' k) eqn:E; simpl; rewrite E; auto.
Qed.

Lemma dict_get_set_ne d k k' v :
  k <> k' -> dict_get (dict_set d k v) k' = dict_get d k'.
Proof.
  intros Hne. induction d as [|[k0 v0] d IH]; simpl.
  - apply String.eqb_neq in Hne. now rewrite Hne.
  - destruct (String.eqb k0 k) eqn:E; simpl.
    + apply String.eqb_eq in E. subst k0.
      apply String.eqb_neq in Hne. now rewrite Hne.
    + now rewrite IH.
Qed.

Lemma dict_contains_In d k : dict_contains d k = true <-> In k (keys d).
Proof.
  unfold dict_contains, keys. induction d as [|[k' v'] d IH]; simpl.
  - split; [discriminate | tauto].
  - destruct (String.eqb k' k) eqn:E.
    + apply String.eqb_eq in E. tauto.
    + apply String.eqb_neq in E. rewrite IH. tauto.
Qed.

Lemma dict_get_None d k : dict_get d k = None <-> ~ In k (keys d).
Proof.
  rewrite <- dict_contains_In. unfold dict_contains.
  destruct (dict_get d k); split; intros H; congruence.
Qed.

Lemma keys_set_present d k v :
  dict_contains d k = true -> keys (dict_set d k v) = keys d.
Proof.
  unfold dict_contains, keys. induction d as [|[k' v'] d IH]; simpl.
  - discriminate.
  - destruct (String.eqb k' k) eqn:E; simpl; intros H; [reflexivity|].
    now rewrite IH.
Qed.

Lemma keys_set_absent d k v :
  dict_contains d k = false -> keys (dict_set d k v) = keys d ++ [k].
Proof.
  unfold dict_contains, keys. induction d as [|[k' v'] d IH]; simpl.
  - reflexivity.
  - destruct (String.eqb k' k) eqn:E; simpl; intros H; [discriminate|].
    now rewrite IH.
Qed.

Lemma In_keys_set d k v x :
  In x (keys (dict_set d k v)) <-> In x (keys d) \/ x = k.
Proof.
  destruct (dict_contains d k) eqn:E.
  - rewrite keys_set_present by assumption.
    apply dict_contains_In in E. split; [tauto|]. intros [H | ->]; assumption.
  - rewrite keys_set_absent by assumption. rewrite in_app_iff. simpl.
    intuition congruence.
Qed.

Lemma NoDup_keys_set d k v :
  List.NoDup (keys d) -> List.NoDup (keys (dict_set d k v)).
Proof.
  intros Hnd. destruct (dict_contains d k) eqn:E.
  - now rewrite keys_set_present.
  - rewrite keys_set_absent by assumption.
    apply List.NoDup_app; auto.
    + constructor; [intros [] | constructor].
    + intros x Hx [<- | []].
      apply dict_contains_In in Hx. congruence.
Qed.
End DictFacts.

Lemma existsb_eqb_In (x : string) (l : list string) :
  existsb (String.eqb x) l = true <-> In x l.
Proof.
  rewrite existsb_exists. split.
  - intros [y [Hy E]]. apply String.eqb_eq in E. now subst.
  - intros H. exists x. split; [assumption | apply String.eqb_refl].
Qed.

Lemma In_unique_from (seen l : list string) (x : string) :
  In x (unique_from seen l) <-> In x l /\ ~ In x seen.
Proof.
  revert seen. induction l as [|y t IH]; intros seen; simpl.
  - tauto.
  - destruct (existsb (String.eqb y) seen) eqn:E.
    + apply existsb_eqb_In in E. rewrite IH.
      split; [tauto|]. intros [[<- | H] Hs]; tauto.
    + assert (Hy : ~ In y seen).
      { intros H. apply existsb_eqb_In in H. congruence. }
      simpl. rewrite IH. simpl.
      destruct (string_dec y x) as [<- | Hne]; [tauto|]. tauto.
Qed.

Lemma In_unique (l : list string) (x : string) : In x (unique l) <-> In x l.
Proof. unfold unique. rewrite In_unique_from. simpl. tauto. Qed.

(** ** Running the engine: what each loop leaves in [self.ratings] *)

Lemma with_ratings_id self : with_ratings self (ratings self) = self.
Proof. now destruct self. Qed.

Lemma bind_return {A B} (c : py A) (k : A -> py B) self a self' :
  c self = (Return a, self') -> bind c k self = k a self'.
Proof. intros H. unfold bind. now rewrite H. Qed.

Lemma getitem_run self d k :
  In k (keys d) ->
  getitem k (with_ratings self d) = (Return (rating_in d k), with_ratings self d).
Proof.
  intros Hin. unfold getitem, rating_in. simpl.
  destruct (dict_get d k) eqn:E; [reflexivity|].
  apply dict_get_None in E. contradiction.
Qed.

Lemma get_default_run self d k v :
  get_default k v (with_ratings self d)
  = (Return (match dict_get d k with Some x => x | None => v end),
     with_ratings self d).
Proof. unfold get_default. simpl. now destruct (dict_get d k). Qed.

Lemma get_initial_rating_run self d :
  get_initial_rating (with_ratings self d)
  = (Return (initial_rating self), with_ratings self d).
Proof. reflexivity. Qed.

Lemma get_k_factor_run self d :
  get_k_factor (with_ratings self d) = (Return (k_factor self), with_ratings self d).
Proof. reflexivity. Qed.

Lemma truediv_run a b self :
  b <> 0%Z -> truediv a b self = (Return (IZR a / IZR b)%R, self).
Proof.
  intros Hb. unfold truediv. apply Z.eqb_neq in Hb. now rewrite Hb.
Qed.

Lemma init_loop_run (l : list string) self d :
  for_each l (fun driver =>
      known <- contains driver ;;
      if known then ret tt
      else r0 <- get_initial_rating ;; setitem driver (Fin r0))
    (with_ratings self d)
  = (Return tt, with_ratings self (init_dict (initial_rating self) l d)).
Proof.
  revert d. induction l as [|x t IH]; intros d; [reflexivity|].
  cbn [for_each init_dict fold_left].
  unfold bind at 1. unfold bind at 1. unfold contains at 1. cbn [ratings with_ratings].
  destruct (dict_contains d x); simpl.
  - apply IH.
  - apply IH.
Qed.

Lemma initialize_run rr self :
  initialize_new_drivers rr self
  = (Return tt,
     with_ratings self
       (init_dict (initial_rating self) (unique (map fst rr)) (ratings self))).
Proof.
  unfold initialize_new_drivers.
  rewrite <- (with_ratings_id self) at 1. apply init_loop_run.
Qed.

Lemma In_keys_init_dict r0 l d x :
  In x (keys (init_dict r0 l d)) <-> In x (keys d) \/ In x l.
Proof.
  unfold init_dict. revert d. induction l as [|y t IH]; intros d; simpl.
  - tauto.
  - rewrite IH. destruct (dict_contains d y) eqn:E.
    + apply dict_contains_In in E. split; [tauto|].
      intros [H | [<- | H]]; tauto.
    + rewrite In_keys_set. split; [intros [[H | ->] | H] | intros [H | [<- | H]]]; tauto.
Qed.

Lemma dict_get_init_dict_old r0 l d x :
  In x (keys d) -> dict_get (init_dict r0 l d) x = dict_get d x.
Proof.
  unfold init_dict. revert d. induction l as [|y t IH]; intros d Hin; simpl.
  - reflexivity.
  - destruct (dict_contains d y) eqn:E.
    + now apply IH.
    + rewrite IH by (apply In_keys_set; tauto).
      apply dict_get_set_ne. intros ->.
      apply dict_contains_In in Hin. congruence.
Qed.

Lemma dict_get_init_dict_new r0 l d x :
  ~ In x (keys d) -> In x l -> dict_get (init_dict r0 l d) x = Some (Fin r0).
Proof.
  unfold init_dict. revert d. induction l as [|y t IH]; intros d Hout Hin; simpl.
  - destruct Hin.
  - destruct (dict_contains d y) eqn:E.
    + apply IH; [assumption|]. destruct Hin as [-> | H]; [|assumption].
      apply dict_contains_In in E. contradiction.
    + destruct (string_dec y x) as [-> | Hne].
      * change (dict_get (init_dict r0 t (dict_set d x (Fin r0))) x = Some (Fin r0)).
        rewrite dict_get_init_dict_old by (apply In_keys_set; tauto).
        apply dict_get_set_eq.
      * apply IH; [|destruct Hin; congruence].
        rewrite In_keys_set. intros [H | ->]; congruence.
Qed.

Lemma NoDup_keys_init_dict r0 l d :
  List.NoDup (keys d) -> List.NoDup (keys (init_dict r0 l d)).
Proof.
  unfold init_dict. revert d. induction l as [|y t IH]; intros d Hnd; simpl.
  - assumption.
  - apply IH. destruct (dict_contains d y); [assumption|].
    now apply NoDup_keys_set.
Qed.

Lemma In_opponents rr driver o :
  In o (map fst (opponents_of rr driver)) <-> In o (map fst rr) /\ o <> driver.
Proof.
  unfold opponents_of. rewrite !in_map_iff. split.
  - intros [[o' p] [<- H]]. apply filter_In in H. destruct H as [H E]. simpl in *.
    split; [exists (o', p); auto|].
    apply negb_true_iff, String.eqb_neq in E. assumption.
  - intros [[[o' p] [<- H]] Hne]. exists (o', p). split; [reflexivity|].
    apply filter_In. split; [assumption|]. simpl in *.
    now apply negb_true_iff, String.eqb_neq.
Qed.

Section EloCalculatorRuns.
Variable rr : list (string * Z).
Variable N : Z.
Hypothesis HN : (N - 1 <> 0)%Z.

Lemma ec_scores_run self d driver (l : list string) :
  (forall o, In o l -> In o (keys d)) ->
  In driver (keys d) ->
  comprehension l (fun opp =>
      ro <- getitem opp ;;
      rd <- getitem driver ;;
      ret (win_probability ro rd)) (with_ratings self d)
  = (Return (map (fun o => win_probability (rating_in d o) (rating_in d driver)) l),
     with_ratings self d).
Proof using Type.
  intros Hl Hd. induction l as [|o t IH]; [reflexivity|].
  cbn [comprehension map].
  erewrite bind_return; cycle 1.
  { erewrite bind_return by (apply getitem_run, Hl; now left).
    erewrite bind_return by (apply getitem_run, Hd). reflexivity. }
  erewrite bind_return by (apply IH; intros; apply Hl; now right).
  reflexivity.
Qed.

Lemma ec_update_row_run self d r :
  (forall o, In o (map fst rr) -> In o (keys d)) ->
  In r rr ->
  EloCalculator.update_row rr N r (with_ratings self d)
  = (Return tt,
     with_ratings self (dict_set d (fst r) (ec_rating (k_factor self) rr N d r))).
Proof using HN.
  intros Hkeys Hr.
  assert (Hd : In (fst r) (keys d)) by (apply Hkeys, in_map, Hr).
  unfold EloCalculator.update_row, EloCalculator.actual_score_of,
    EloCalculator.expected_score_of.
  erewrite bind_return; cycle 1.
  { erewrite bind_return by (apply truediv_run, HN). reflexivity. }
  erewrite bind_return; cycle 1.
  { erewrite bind_return; [reflexivity|].
    apply ec_scores_run; [|assumption].
    intros o Ho. apply In_opponents in Ho. apply Hkeys. tauto. }
  erewrite bind_return by (apply getitem_run, Hd).
  reflexivity.
Qed.

Lemma ec_rows_keys K l d :
  (forall r, In r l -> In (fst r) (keys d)) ->
  keys (ec_rows K rr N l d) = keys d.
Proof using Type.
  unfold ec_rows, rows_fold. revert d.
  induction l as [|r t IH]; intros d Hl; [reflexivity|].
  simpl.
  assert (E : keys (dict_set d (fst r) (ec_rating K rr N d r)) = keys d).
  { apply keys_set_present, dict_contains_In, Hl. now left. }
  rewrite IH; [assumption|].
  intros r' Hr'. rewrite E. apply Hl. now right.
Qed.

Lemma ec_loop_run self l d :
  (forall o, In o (map fst rr) -> In o (keys d)) ->
  incl l rr ->
  for_each l (EloCalculator.update_row rr N) (with_ratings self d)
  = (Return tt, with_ratings self (ec_rows (k_factor self) rr N l d)).
Proof using HN.
  revert d. induction l as [|r t IH]; intros d Hkeys Hincl; [reflexivity|].
  cbn [for_each].
  erewrite bind_return by (apply ec_update_row_run; [assumption | apply Hincl; now left]).
  apply IH.
  - intros o Ho. apply In_keys_set. left. auto.
  - intros x Hx. apply Hincl. now right.
Qed.
End EloCalculatorRuns.

(** [elo_calculator.py]'s [update_ratings] never raises. *)
Lemma ec_update_ratings_run self ev :
  EloCalculator.update_ratings ev self
  = (Return tt, with_ratings self (ec_update self ev)).
Proof.
  unfold EloCalculator.update_ratings, ec_update.
  destruct (length (dropna ev) <? 2)%nat eqn:E.
  - now rewrite with_ratings_id.
  - apply Nat.ltb_ge in E.
    erewrite bind_return by apply initialize_run.
    apply ec_loop_run.
    + lia.
    + intros o Ho. apply In_keys_init_dict. right. now apply In_unique.
    + apply incl_refl.
Qed.

(** ** Which keys the engine adds to the snapshot *)

Lemma In_keys_ec_update self ev x :
  In x (keys (ec_update self ev))
  <-> In x (keys (ratings self)) \/ (processed ev /\ In x (competitors ev)).
Proof.
  unfold ec_update, processed, competitors.
  destruct (length (dropna ev) <? 2)%nat eqn:E.
  - apply Nat.ltb_lt in E. split; [tauto|]. intros [H | [H _]]; [assumption | lia].
  - apply Nat.ltb_ge in E.
    rewrite ec_rows_keys.
    + rewrite In_keys_init_dict, In_unique. tauto.
    + intros r Hr. apply In_keys_init_dict. right. apply In_unique. now apply in_map.
Qed.

Lemma ec_process_events_run events self :
  EloCalculator.process_events events self
  = (Return tt, with_ratings self (ec_process self events)).
Proof.
  unfold EloCalculator.process_events, ec_process.
  rewrite <- (with_ratings_id self) at 1.
  generalize (ratings self) as d.
  induction events as [|ev t IH]; intros d; [reflexivity|].
  cbn [for_each fold_left].
  erewrite bind_return by apply ec_update_ratings_run.
  apply IH.
Qed.

Lemma In_keys_ec_process self events x :
  In x (keys (ec_process self events))
  <-> In x (keys (ratings self))
      \/ exists ev, In ev events /\ processed ev /\ In x (competitors ev).
Proof.
  unfold ec_process. generalize (ratings self) as d.
  induction events as [|ev t IH]; intros d; simpl.
  - split; [tauto|]. intros [H | [ev [[] _]]]. assumption.
  - rewrite IH, In_keys_ec_update. simpl. split.
    + intros [[H | H] | [ev' [H1 H2]]].
      * now left.
      * right. exists ev. tauto.
      * right. exists ev'. tauto.
    + intros [H | [ev' [[<- | H1] H2]]].
      * tauto.
      * tauto.
      * right. exists ev'. tauto.
Qed.

Lemma NoDup_keys_ec_update self ev :
  List.NoDup (keys (ratings self)) -> List.NoDup (keys (ec_update self ev)).
Proof.
  intros Hnd. unfold ec_update.
  destruct (length (dropna ev) <? 2)%nat; [assumption|].
  rewrite ec_rows_keys.
  - now apply NoDup_keys_init_dict.
  - intros r Hr. apply In_keys_init_dict. right. apply In_unique. now apply in_map.
Qed.

(** The snapshot the engine hands to the store has no competitor twice. *)
Lemma NoDup_keys_ec_process self events :
  List.NoDup (keys (ratings self)) -> List.NoDup (keys (ec_process self events)).
Proof.
  unfold ec_process. generalize (ratings self) as d.
  induction events as [|ev t IH]; intros d Hnd; simpl; [assumption|].
  apply IH. now apply (NoDup_keys_ec_update (with_ratings self d)).
Qed.

(** ** The same for elo.py, whose loop body can raise *)

Lemma len_div_run (l : list pyfloat) self :
  l <> [] ->
  Elo.len_div l self = (Return (fdiv (fsum l) (Fin (INR (length l)))), self).
Proof. intros Hl. unfold Elo.len_div. now destruct l. Qed.

Section EloRuns.
Variable rr : list (string * Z).
Variable N : Z.
Hypothesis HN : (N - 1 <> 0)%Z.
Hypothesis Hopp : forall r, In r rr -> opponents_of rr (fst r) <> [].

Lemma elo_scores_run self d driver (l : list (string * Z)) :
  In driver (keys d) ->
  Elo.expected_scores_of l driver (with_ratings self d)
  = (Return (map (fun o => win_probability
                   (match dict_get d (fst o) with
                    | Some v => v
                    | None => Fin (initial_rating self)
                    end)
                   (rating_in d driver)) l),
     with_ratings self d).
Proof using Type.
  intros Hd. unfold Elo.expected_scores_of.
  induction l as [|o t IH]; [reflexivity|].
  cbn [comprehension map].
  erewrite bind_return; cycle 1.
  { erewrite bind_return by apply get_initial_rating_run.
    erewrite bind_return by apply get_default_run.
    erewrite bind_return by (apply getitem_run, Hd). reflexivity. }
  erewrite bind_return by apply IH.
  reflexivity.
Qed.

Lemma elo_update_row_run self d r :
  (forall o, In o (map fst rr) -> In o (keys d)) ->
  In r rr ->
  Elo.update_row rr N r (with_ratings self d)
  = (Return tt,
     with_ratings self
       (dict_set d (fst r)
          (elo_rating (k_factor self) (initial_rating self) rr N d r))).
Proof using HN Hopp.
  intros Hkeys Hr.
  assert (Hd : In (fst r) (keys d)) by (apply Hkeys, in_map, Hr).
  unfold Elo.update_row, Elo.normalize_race_position.
  erewrite bind_return; cycle 1.
  { erewrite bind_return by (apply truediv_run, HN). reflexivity. }
  erewrite bind_return by (apply elo_scores_run, Hd).
  erewrite bind_return; cycle 1.
  { apply len_div_run. intros E. apply map_eq_nil in E. now apply Hopp in Hr. }
  erewrite bind_return by apply get_k_factor_run.
  erewrite bind_return by (apply getitem_run, Hd).
  reflexivity.
Qed.

Lemma elo_loop_run self l d :
  (forall o, In o (map fst rr) -> In o (keys d)) ->
  incl l rr ->
  for_each l (Elo.update_row rr N) (with_ratings self d)
  = (Return tt,
     with_ratings self (elo_rows (k_factor self) (initial_rating self) rr N l d)).
Proof using HN Hopp.
  revert d. induction l as [|r t IH]; intros d Hkeys Hincl; [reflexivity|].
  cbn [for_each].
  erewrite bind_return by (apply elo_update_row_run; [assumption | apply Hincl; now left]).
  apply IH.
  - intros o Ho. apply In_keys_set. left. auto.
  - intros x Hx. apply Hincl. now right.
Qed.
End EloRuns.

(** Two valid rows with different competitors give every row an opponent. *)
Lemma distinct_drivers_opponents (rr : list (string * Z)) :
  (exists r1 r2, In r1 rr /\ In r2 rr /\ fst r1 <> fst r2) ->
  forall r, In r rr -> opponents_of rr (fst r) <> [].
Proof.
  intros [r1 [r2 [H1 [H2 Hne]]]] r Hr E.
  assert (Hin : forall o, In o rr -> fst o = fst r).
  { intros o Ho. destruct (string_dec (fst o) (fst r)) as [|Hd]; [assumption|].
    assert (In o (opponents_of rr (fst r))) as Hc.
    { apply filter_In. split; [assumption|].
      now apply negb_true_iff, String.eqb_neq. }
    rewrite E in Hc. destruct Hc. }
  apply Hne. rewrite (Hin r1 H1), (Hin r2 H2). reflexivity.
Qed.

Lemma distinct_drivers_length (rr : list (string * Z)) :
  (exists r1 r2, In r1 rr /\ In r2 rr /\ fst r1 <> fst r2) ->
  (2 <= length rr)%nat.
Proof.
  intros [r1 [r2 [H1 [H2 Hne]]]].
  destruct rr as [|a [|b t]]; simpl in *; [tauto | | lia].
  destruct H1 as [<- | []], H2 as [<- | []]. congruence.
Qed.

Lemma elo_update_ratings_run self ev :
  (forall r, In r (dropna ev) -> opponents_of (dropna ev) (fst r) <> []) ->
  Elo.update_ratings ev self = (Return tt, with_ratings self (elo_update self ev)).
Proof.
  intros Hopp. unfold Elo.update_ratings, elo_update.
  destruct (length (dropna ev) <? 2)%nat eqn:E.
  - now rewrite with_ratings_id.
  - apply Nat.ltb_ge in E.
    erewrite bind_return by apply initialize_run.
    apply elo_loop_run.
    + lia.
    + assumption.
    + intros o Ho. apply In_keys_init_dict. right. now apply In_unique.
    + apply incl_refl.
Qed.

(** ** No NaN without an empty mean *)

Lemma lift2_finite f a b :
  is_nan a = false -> is_nan b = false -> is_nan (lift2 f a b) = false.
Proof. destruct a, b; simpl; congruence. Qed.

Lemma win_probability_finite a b :
  is_nan a = false -> is_nan b = false -> is_nan (win_probability a b) = false.
Proof.
  intros Ha Hb. unfold win_probability, fdiv, fadd, fpow, fsub.
  repeat apply lift2_finite; auto.
Qed.

Lemma fsum_finite (l : list pyfloat) :
  (forall a, In a l -> is_nan a = false) -> is_nan (fsum l) = false.
Proof.
  unfold fsum. generalize (Fin 0) as acc, (eq_refl : is_nan (Fin 0) = false).
  induction l as [|a t IH]; intros acc Hacc Hl; simpl; [assumption|].
  apply IH.
  - apply lift2_finite; [assumption | apply Hl; now left].
  - intros b Hb. apply Hl. now right.
Qed.

Lemma np_mean_finite (l : list pyfloat) :
  l <> [] -> (forall a, In a l -> is_nan a = false) ->
  is_nan (EloCalculator.np_mean l) = false.
Proof.
  intros Hne Hl. destruct l as [|a t]; [congruence|].
  unfold EloCalculator.np_mean, fdiv.
  apply lift2_finite; [now apply fsum_finite | reflexivity].
Qed.

Lemma rating_in_finite d k :
  all_finite d -> In k (keys d) -> is_nan (rating_in d k) = false.
Proof.
  intros Hd Hk. unfold rating_in. destruct (dict_get d k) eqn:E.
  - eapply Hd, E.
  - apply dict_get_None in E. contradiction.
Qed.

Lemma all_finite_set d k v :
  all_finite d -> is_nan v = false -> all_finite (dict_set d k v).
Proof.
  intros Hd Hv k' v'. destruct (string_dec k k') as [<- | Hne].
  - rewrite dict_get_set_eq. congruence.
  - rewrite dict_get_set_ne by assumption. apply Hd.
Qed.

Lemma all_finite_init_dict r0 l d : all_finite d -> all_finite (init_dict r0 l d).
Proof.
  unfold init_dict. revert d. induction l as [|x t IH]; intros d Hd; simpl.
  - assumption.
  - apply IH. destruct (dict_contains d x); [assumption|].
    now apply all_finite_set.
Qed.

Lemma ec_rating_finite K rr N d r :
  all_finite d ->
  (forall o, In o (map fst rr) -> In o (keys d)) ->
  In r rr ->
  opponents_of rr (fst r) <> [] ->
  is_nan (ec_rating K rr N d r) = false.
Proof.
  intros Hd Hkeys Hr Hopp.
  assert (Hk : In (fst r) (keys d)) by (apply Hkeys, in_map, Hr).
  unfold ec_rating, fadd, fmul, fsub.
  apply lift2_finite; [now apply rating_in_finite|].
  apply lift2_finite; [reflexivity|].
  apply lift2_finite; [reflexivity|].
  apply np_mean_finite.
  - intros E. apply map_eq_nil in E. apply map_eq_nil in E. contradiction.
  - intros a Ha. apply in_map_iff in Ha. destruct Ha as [o [<- Ho]].
    apply In_opponents in Ho. destruct Ho as [Ho _].
    apply win_probability_finite; apply rating_in_finite; auto.
Qed.

Lemma ec_rows_finite K rr N l d :
  all_finite d ->
  (forall o, In o (map fst rr) -> In o (keys d)) ->
  (forall r, In r rr -> opponents_of rr (fst r) <> []) ->
  incl l rr ->
  all_finite (ec_rows K rr N l d).
Proof.
  intros Hd Hkeys Hopp. unfold ec_rows, rows_fold. revert d Hd Hkeys.
  induction l as [|r t IH]; intros d Hd Hkeys Hincl; simpl; [assumption|].
  assert (Hr : In r rr) by (apply Hincl; now left).
  apply IH.
  - apply all_finite_set; [assumption|]. apply ec_rating_finite; auto.
  - intros o Ho. apply In_keys_set. left. auto.
  - intros x Hx. apply Hincl. now right.
Qed.

(** ** Properties of the rating store *)

Section StoreFacts.
Import DatabaseManager.

Lemma save_ratings_other ratings_df now (t : table) driver :
  ~ In driver (map fst ratings_df) ->
  save_ratings ratings_df now t !! driver = t !! driver.
Proof.
  unfold save_ratings. revert t.
  induction ratings_df as [|[k v] l IH]; intros t Hout; simpl in *.
  - reflexivity.
  - rewrite IH by tauto. unfold insert_or_replace.
    apply lookup_insert_ne. tauto.
Qed.

Lemma save_ratings_saved ratings_df now (t : table) driver rating :
  List.NoDup (map fst ratings_df) ->
  In (driver, rating) ratings_df ->
  save_ratings ratings_df now t !! driver = Some (DbRow rating now).
Proof.
  unfold save_ratings. revert t.
  induction ratings_df as [|[k v] l IH]; intros t Hnd Hin; simpl in *.
  - destruct Hin.
  - inversion Hnd as [|? ? Hk Hl]; subst.
    destruct Hin as [E | Hin].
    + inversion E; subst.
      change (save_ratings l now (insert_or_replace driver rating now t) !! driver
              = Some (DbRow rating now)).
      rewrite save_ratings_other by assumption.
      apply lookup_insert_eq.
    + now apply IH.
Qed.

(** C7. [save_ratings] writes, for every competitor of the saved snapshot,
    a row holding its rating and the one timestamp of this write, and
    leaves every row of a competitor absent from the snapshot as it was:
    nothing is deleted. *)
Theorem save_ratings_upserts_and_keeps_the_rest
    (ratings_df : list (string * pyfloat)) (now : string) (t : table) :
  List.NoDup (map fst ratings_df) ->
  (forall driver rating,
      In (driver, rating) ratings_df ->
      save_ratings ratings_df now t !! driver = Some (DbRow rating now))
  /\ (forall driver,
        ~ In driver (map fst ratings_df) ->
        save_ratings ratings_df now t !! driver = t !! driver).
Proof.
  intros Hnd. split.
  - intros driver rating. now apply save_ratings_saved.
  - intros driver. apply save_ratings_other.
Qed.

Lemma save_ratings_upserts_and_keeps_the_rest_witness :
  save_ratings saved_frame "2024-03-04T10:00:00" stored_table !! "Lando Norris"
    = Some (DbRow (Fin 1550) "2024-03-04T10:00:00")
  /\ save_ratings saved_frame "2024-03-04T10:00:00" stored_table !! "Kimi Raikkonen"
     = Some (DbRow (Fin 1490) "2021-12-13T10:00:00").
Proof.
  assert (Hnd : List.NoDup (map fst saved_frame)).
  { repeat constructor; simpl; intuition discriminate. }
  destruct (save_ratings_upserts_and_keeps_the_rest
              saved_frame "2024-03-04T10:00:00" stored_table Hnd)
    as [Hsaved Hother].
  split.
  - apply Hsaved. simpl. tauto.
  - rewrite Hother.
    + reflexivity.
    + simpl. intuition discriminate.
Defined.

(** C8, second half, on the code: on a table without rows
    [get_last_update_time] returns [None], the NULL that MAX gives, and not
    the string ["Never"]. *)
Theorem get_last_update_time_empty_store :
  get_last_update_time (∅ : table) = PyNone
  /\ get_last_update_time (∅ : table) <> PyStr "Never".
Proof.
  assert (E : get_last_update_time (∅ : table) = PyNone).
  { unfold get_last_update_time, select_max_last_updated, max_last_updated.
    rewrite map_to_list_empty. reflexivity. }
  split; [assumption|]. rewrite E. discriminate.
Qed.

(** The sentinel is returned for no table at all: the branch is dead. *)
Lemma get_last_update_time_Never_iff (t : table) :
  get_last_update_time t = PyStr "Never"
  <-> max_last_updated t = PyStr "Never".
Proof. reflexivity. Qed.

(** C8, first half: with no stored row the engine starts from an empty
    snapshot. *)
Lemma load_empty_store (order_by : list (string * pyfloat) -> list (string * pyfloat)) :
  (forall l, Permutation l (order_by l)) ->
  get_ratings order_by (∅ : table) = []
  /\ load_existing_ratings order_by (∅ : table) new_engine
     = (Return tt, new_engine).
Proof.
  intros Hperm.
  assert (E : get_ratings order_by (∅ : table) = []).
  { unfold get_ratings. rewrite map_to_list_empty. simpl.
    apply Permutation_nil, Hperm. }
  split; [assumption|]. unfold load_existing_ratings. now rewrite E.
Qed.
End StoreFacts.

(** ** Properties of the engine: which competitors a snapshot holds *)

(** C9. Whatever the sequence of events, the loop of [update_ratings] calls
    started on an empty snapshot ends without an exception, and the keys of
    the snapshot are exactly the competitors of the valid rows of the events
    that were processed (not skipped); one more [update_ratings] call never
    removes a key. *)
Theorem snapshot_keys_are_the_processed_competitors
    (self : F1EloRating) (events : list DataFrame) :
  exists final,
    EloCalculator.process_events events (with_ratings self []) = (Return tt, final)
    /\ (forall driver,
          In driver (keys (ratings final))
          <-> exists ev, In ev events /\ processed ev /\ In driver (competitors ev))
    /\ (forall engine ev driver,
          In driver (keys (ratings engine)) ->
          In driver (keys (ratings (snd (EloCalculator.update_ratings ev engine))))).
Proof.
  eexists. split; [apply ec_process_events_run|]. split.
  - intros driver. cbn [ratings with_ratings].
    rewrite In_keys_ec_process. cbn [ratings with_ratings keys map].
    split; [intros [[] | H]; exact H | intros H; right; exact H].
  - intros engine ev driver Hin. rewrite ec_update_ratings_run.
    cbn [snd ratings with_ratings]. apply In_keys_ec_update. now left.
Qed.

(** ** Properties of the engine: the guard and the divisions *)

(** C3, as the code has it. An event that has fewer than two rows once the
    rows with a missing driver or position are dropped is skipped: the call
    returns normally and the engine is unchanged, in both files. *)
Theorem update_ratings_skips_short_events (self : F1EloRating) (ev : DataFrame) :
  (length (dropna ev) < 2)%nat ->
  EloCalculator.update_ratings ev self = (Return tt, self)
  /\ Elo.update_ratings ev self = (Return tt, self).
Proof.
  intros Hlen. apply Nat.ltb_lt in Hlen.
  unfold EloCalculator.update_ratings, Elo.update_ratings.
  rewrite Hlen. split; reflexivity.
Qed.

Lemma update_ratings_skips_short_events_witness :
  EloCalculator.update_ratings one_valid_row_event new_engine = (Return tt, new_engine)
  /\ Elo.update_ratings one_valid_row_event new_engine = (Return tt, new_engine).
Proof.
  apply (update_ratings_skips_short_events new_engine one_valid_row_event).
  simpl. lia.
Defined.

(** C3, as stated, fails: an event whose two valid rows name the same
    competitor has fewer than two distinct competitors, yet it passes the
    guard.  [elo_calculator.py] stores NaN for the competitor (the mean of no
    expected score); [elo.py] raises after the competitor was inserted. *)
Lemma duplicate_competitor_event_is_not_skipped :
  (length (unique (competitors duplicate_competitor_event)) < 2)%nat
  /\ EloCalculator.update_ratings duplicate_competitor_event new_engine
     = (Return tt, with_ratings new_engine [("A", NaN)])
  /\ Elo.update_ratings duplicate_competitor_event new_engine
     = (Raise ZeroDivisionError, with_ratings new_engine [("A", Fin 1500)])
  /\ with_ratings new_engine [("A", NaN)] <> new_engine
  /\ with_ratings new_engine [("A", Fin 1500)] <> new_engine.
Proof.
  split; [simpl; lia|].
  split; [reflexivity|]. split; [reflexivity|].
  split; discriminate.
Qed.

(** C10. When the valid rows of an event include two with different
    competitors, no division of [update_ratings] is by zero: [N - 1] is
    positive, every row has an opponent (so no mean is taken over an empty
    list), [1 + 10 ** x] is never zero, neither file raises, and
    [elo_calculator.py] produces no NaN from finite ratings. *)
Theorem update_ratings_divisions_are_defined (self : F1EloRating) (ev : DataFrame) :
  (2 <= length (dropna ev))%nat ->
  (exists r1 r2, In r1 (dropna ev) /\ In r2 (dropna ev) /\ fst r1 <> fst r2) ->
  (0 < Z.of_nat (length (dropna ev)) - 1)%Z
  /\ (forall r, In r (dropna ev) -> opponents_of (dropna ev) (fst r) <> [])
  /\ (forall x : R, (1 + Rpower 10 x)%R <> 0%R)
  /\ fst (EloCalculator.update_ratings ev self) = Return tt
  /\ fst (Elo.update_ratings ev self) = Return tt
  /\ (all_finite (ratings self) ->
      all_finite (ratings (snd (EloCalculator.update_ratings ev self)))).
Proof.
  intros Hlen Hdistinct.
  pose proof (distinct_drivers_opponents _ Hdistinct) as Hopp.
  split; [lia|]. split; [assumption|]. split.
  { intros x. unfold Rpower. pose proof (exp_pos (x * ln 10)). lra. }
  split; [now rewrite ec_update_ratings_run|].
  split; [now rewrite elo_update_ratings_run|].
  intros Hfin. rewrite ec_update_ratings_run. cbn [snd ratings with_ratings].
  unfold ec_update. apply Nat.ltb_ge in Hlen. rewrite Hlen.
  apply ec_rows_finite.
  - now apply all_finite_init_dict.
  - intros o Ho. apply In_keys_init_dict. right. now apply In_unique.
  - assumption.
  - apply incl_refl.
Qed.

Lemma update_ratings_divisions_are_defined_witness :
  fst (EloCalculator.update_ratings event_with_missing_driver new_engine) = Return tt
  /\ fst (Elo.update_ratings event_with_missing_driver new_engine) = Return tt.
Proof.
  set (ev := event_with_missing_driver).
  assert (Hlen : (2 <= length (dropna ev))%nat) by (simpl; lia).
  assert (Hd : exists r1 r2, In r1 (dropna ev) /\ In r2 (dropna ev) /\ fst r1 <> fst r2).
  { exists ("A", 1%Z), ("B", 3%Z). simpl. intuition discriminate. }
  destruct (update_ratings_divisions_are_defined new_engine ev Hlen Hd)
    as [_ [_ [_ [H1 [H2 _]]]]].
  split; assumption.
Defined.

(** ** Properties of the actual score *)

#[local] Open Scope R_scope.

Lemma Rsum_app l1 l2 : Rsum (l1 ++ l2) = Rsum l1 + Rsum l2.
Proof. induction l1 as [|x t IH]; simpl; [lra | rewrite IH; lra]. Qed.

Lemma Rsum_map_Permutation {A} (f : A -> R) (l l' : list A) :
  Permutation l l' -> Rsum (map f l) = Rsum (map f l').
Proof. induction 1; simpl; lra. Qed.

Lemma Rsum_linear_score_positions (N : Z) (n : nat) :
  Rsum (map (linear_score N) (positions n))
  = INR n - (INR n * (INR n - 1) / 2) / IZR (N - 1).
Proof.
  unfold positions. induction n as [|n IH].
  - simpl. lra.
  - rewrite seq_S, !map_app, Rsum_app, IH. cbn [map Rsum Nat.add].
    unfold linear_score. rewrite S_INR.
    replace (Z.of_nat (S n) - 1)%Z with (Z.of_nat n) by lia.
    rewrite <- INR_IZR_INZ. unfold Rdiv. lra.
Qed.


Lemma ec_actual_score_run position N self :
  (N - 1 <> 0)%Z ->
  EloCalculator.actual_score_of position N self
  = (Return (linear_score N position), self).
Proof.
  intros HN. unfold EloCalculator.actual_score_of.
  erewrite bind_return by (apply truediv_run, HN). reflexivity.
Qed.

Lemma normalize_race_position_run position N self :
  (N - 1 <> 0)%Z ->
  Elo.normalize_race_position position N self
  = (Return (linear_score N (Z.max 1 (Z.min position N))), self).
Proof.
  intros HN. unfold Elo.normalize_race_position.
  erewrite bind_return by (apply truediv_run, HN). reflexivity.
Qed.

Lemma comprehension_pure {A B} (f : A -> py B) (g : A -> B) (l : list A) self :
  (forall x, In x l -> f x self = (Return (g x), self)) ->
  comprehension l f self = (Return (map g l), self).
Proof.
  induction l as [|x t IH]; intros H; [reflexivity|].
  cbn [comprehension map].
  erewrite bind_return by (apply H; now left).
  erewrite bind_return by (apply IH; intros; apply H; now right).
  reflexivity.
Qed.

(** The clamp of [elo.py]: the score it returns is the linear score of the
    position clamped to [1 .. N], and lies between 0 and 1. *)
Lemma normalize_race_position_clamped position N self :
  (2 <= N)%Z ->
  exists score,
    Elo.normalize_race_position position N self = (Return score, self)
    /\ score = linear_score N (Z.max 1 (Z.min position N))
    /\ 0 <= score <= 1.
Proof.
  intros HN. eexists. split; [apply normalize_race_position_run; lia|].
  split; [reflexivity|].
  unfold linear_score.
  set (p := Z.max 1 (Z.min position N)).
  assert (Hp : (1 <= p <= N)%Z) by (unfold p; lia).
  assert (H0 : 0 <= IZR (p - 1)) by (apply IZR_le; lia).
  assert (H1 : IZR (p - 1) <= IZR (N - 1)) by (apply IZR_le; lia).
  assert (H2 : 0 < IZR (N - 1)) by (apply IZR_lt; lia).
  assert (H3 : 0 <= IZR (p - 1) / IZR (N - 1)).
  { apply Rmult_le_pos; [assumption|]. apply Rlt_le, Rinv_0_lt_compat, H2. }
  assert (H4 : IZR (p - 1) / IZR (N - 1) <= 1).
  { apply Rmult_le_reg_r with (IZR (N - 1)); [assumption|].
    unfold Rdiv. rewrite Rmult_assoc, Rinv_l by lra. lra. }
  lra.
Qed.

(** Over the reals the values of the formula for the positions [1 .. N]
    add up to [N / 2]. *)
Lemma linear_scores_sum_to_half_the_field (rr : list (string * Z)) :
  (2 <= length rr)%nat ->
  Permutation (map snd rr) (positions (length rr)) ->
  Rsum (map (fun r => linear_score (Z.of_nat (length rr)) (snd r)) rr)
  = INR (length rr) / 2.
Proof.
  intros Hlen Hperm.
  rewrite <- (map_map snd (linear_score (Z.of_nat (length rr)))).
  rewrite (Rsum_map_Permutation _ _ _ Hperm), Rsum_linear_score_positions.
  replace (Z.of_nat (length rr) - 1)%Z with (Z.of_nat (length rr - 1)) by lia.
  rewrite <- INR_IZR_INZ, minus_INR by lia. simpl (INR 1).
  assert (H2 : 2 <= INR (length rr)) by (apply (le_INR 2), Hlen).
  field. lra.
Qed.

#[local] Close Scope R_scope.







#[local] Open Scope R_scope.

Lemma Rpower_10_pos (x : R) : 0 < Rpower 10 x.
Proof. unfold Rpower. apply exp_pos. Qed.

(** C4 on [elo_calculator.py]: the position is not clamped.  With two valid
    rows, the row at position 3 gets the actual score -1 (elo.py gives it 0),
    and its competitor loses more than [K] points. *)
Theorem elo_calculator_does_not_clamp_the_position :
  dropna event_with_dropped_row = [("A", 1%Z); ("C", 3%Z)]
  /\ EloCalculator.actual_score_of 3 2 new_engine = (Return (-1), new_engine)
  /\ Elo.normalize_race_position 3 2 new_engine = (Return 0, new_engine)
  /\ exists c,
       dict_get (ratings (snd (EloCalculator.update_ratings
                                 event_with_dropped_row new_engine))) "C"
       = Some (Fin c)
       /\ c < 1500 - 24.
Proof.
  split; [reflexivity|]. split; [|split].
  - rewrite ec_actual_score_run by lia. do 2 f_equal.
    change (1 - IZR 2 / IZR 1 = -1). lra.
  - rewrite normalize_race_position_run by lia. do 2 f_equal.
    change (1 - IZR 1 / IZR 1 = 0). lra.
  - eval_engine. eexists. split; [reflexivity|].
    match goal with |- context [Rpower 10 (?x / 400)] =>
      pose proof (Rpower_10_pos (x / 400)) as Hp;
      set (e := Rpower 10 (x / 400)) in *
    end.
    assert (He : 0 < 1 / (1 + e)) by (apply Rdiv_lt_0_compat; lra).
    lra.
Qed.

(** ** The loop over the rows, row by row *)

#[local] Close Scope R_scope.

Section RowsFold.

Variable F : dict pyfloat -> string * Z -> pyfloat.

Lemma rows_fold_app l1 l2 d :
  rows_fold F (l1 ++ l2) d = rows_fold F l2 (rows_fold F l1 d).
Proof using Type. unfold rows_fold. apply fold_left_app. Qed.

Lemma rows_fold_other l d k :
  ~ In k (map fst l) -> dict_get (rows_fold F l d) k = dict_get d k.
Proof using Type.
  unfold rows_fold. revert d.
  induction l as [|r t IH]; intros d Hout; simpl in *; [reflexivity|].
  rewrite IH by tauto. apply dict_get_set_ne. tauto.
Qed.

Lemma rows_fold_row rr1 r rr2 d :
  List.NoDup (map fst (rr1 ++ r :: rr2)) ->
  dict_get (rows_fold F (rr1 ++ r :: rr2) d) (fst r)
  = Some (F (rows_fold F rr1 d) r).
Proof using Type.
  intros Hnd. rewrite rows_fold_app.
  change (rows_fold F (r :: rr2) (rows_fold F rr1 d))
    with (rows_fold F rr2
            (dict_set (rows_fold F rr1 d) (fst r) (F (rows_fold F rr1 d) r))).
  rewrite rows_fold_other; [apply dict_get_set_eq|].
  rewrite map_app in Hnd. apply NoDup_remove_2 in Hnd.
  intros H. apply Hnd. apply in_or_app. now right.
Qed.

Lemma rows_fold_earlier rr1 r rr2 d k :
  List.NoDup (map fst (rr1 ++ r :: rr2)) ->
  In k (map fst rr1) ->
  dict_get (rows_fold F rr1 d) k = dict_get (rows_fold F (rr1 ++ r :: rr2) d) k.
Proof using Type.
  intros Hnd Hk. rewrite rows_fold_app. symmetry. apply rows_fold_other.
  rewrite map_app in Hnd. intros H.
  revert Hnd Hk H. generalize (map fst (r :: rr2)) as l2, (map fst rr1) as l1.
  intros l2 l1. induction l1 as [|x t IH]; simpl; intros Hnd Hk H; [tauto|].
  inversion Hnd as [|? ? Hx Ht]; subst.
  destruct Hk as [-> | Hk]; [|now apply IH].
  apply Hx. apply in_or_app. now right.
Qed.
End RowsFold.

(** Rows with pairwise different competitors: every row has an opponent as
    soon as there are two rows. *)
Lemma NoDup_opponents (rr : list (string * Z)) :
  List.NoDup (map fst rr) -> (2 <= length rr)%nat ->
  forall r, In r rr -> opponents_of rr (fst r) <> [].
Proof.
  intros Hnd Hlen. apply distinct_drivers_opponents.
  destruct rr as [|a [|b t]]; simpl in *; try lia.
  exists a, b. split; [tauto|]. split; [tauto|].
  inversion Hnd as [|? ? Ha _]; subst. intros E. apply Ha. now left.
Qed.

Lemma rows_fold_keys F l d :
  (forall r, In r l -> In (fst r) (keys d)) ->
  keys (rows_fold F l d) = keys d.
Proof.
  unfold rows_fold. revert d. induction l as [|r t IH]; intros d Hl; [reflexivity|].
  simpl.
  assert (E : keys (dict_set d (fst r) (F d r)) = keys d).
  { apply keys_set_present, dict_contains_In, Hl. now left. }
  rewrite IH; [assumption|].
  intros r' Hr'. rewrite E. apply Hl. now right.
Qed.

(** ** Properties of the engine: which ratings a row's update reads *)

(** C1, as the code has it.  In an event with at least two valid rows and no
    competitor twice, take any row [r], with the rows [rr1] before it.  The
    rating that the snapshot ends with for the competitor of [r] is the one
    the loop body computes on a dict [seen] that holds, for the competitors
    of the earlier rows [rr1], the ratings they end the event with, and for
    everyone else the ratings from before the event (new competitors at the
    initial rating).  Only the first row is computed from the snapshot taken
    before the event.  The same holds in both files. *)
Theorem update_ratings_reads_earlier_rows_updated
    (self : F1EloRating) (ev : DataFrame)
    (rr1 rr2 : list (string * Z)) (r : string * Z) :
  List.NoDup (competitors ev) ->
  (2 <= length (dropna ev))%nat ->
  dropna ev = rr1 ++ r :: rr2 ->
  exists before,
    initialize_new_drivers (dropna ev) self = (Return tt, with_ratings self before)
    /\ (exists seen final v,
          EloCalculator.update_ratings ev self = (Return tt, with_ratings self final)
          /\ (forall d, In d (map fst rr1) -> dict_get seen d = dict_get final d)
          /\ (forall d, ~ In d (map fst rr1) -> dict_get seen d = dict_get before d)
          /\ EloCalculator.update_row (dropna ev) (Z.of_nat (length (dropna ev))) r
               (with_ratings self seen)
             = (Return tt, with_ratings self (dict_set seen (fst r) v))
          /\ dict_get final (fst r) = Some v)
    /\ (exists seen final v,
          Elo.update_ratings ev self = (Return tt, with_ratings self final)
          /\ (forall d, In d (map fst rr1) -> dict_get seen d = dict_get final d)
          /\ (forall d, ~ In d (map fst rr1) -> dict_get seen d = dict_get before d)
          /\ Elo.update_row (dropna ev) (Z.of_nat (length (dropna ev))) r
               (with_ratings self seen)
             = (Return tt, with_ratings self (dict_set seen (fst r) v))
          /\ dict_get final (fst r) = Some v).
Proof.
  unfold competitors. intros Hnd Hlen Hsplit.
  set (rr := dropna ev) in *. set (N := Z.of_nat (length rr)).
  set (before := init_dict (initial_rating self) (unique (map fst rr)) (ratings self)).
  assert (HN : (N - 1 <> 0)%Z) by (unfold N; lia).
  assert (Hopp : forall x, In x rr -> opponents_of rr (fst x) <> [])
    by now apply NoDup_opponents.
  assert (Hkeys : forall o, In o (map fst rr) -> In o (keys before)).
  { intros o Ho. apply In_keys_init_dict. right. now apply In_unique. }
  assert (Hr : In r rr) by (rewrite Hsplit; apply in_elt).
  assert (Hlt : (length rr <? 2)%nat = false) by now apply Nat.ltb_ge.
  assert (Hseen : forall F o, In o (map fst rr) -> In o (keys (rows_fold F rr1 before))).
  { intros F o Ho. rewrite rows_fold_keys; [now apply Hkeys|].
    intros x Hx. apply Hkeys, in_map. rewrite Hsplit. apply in_or_app. now left. }
  exists before. split; [apply initialize_run|]. split.
  - set (F := ec_rating (k_factor self) rr N).
    exists (rows_fold F rr1 before), (rows_fold F rr before), (F (rows_fold F rr1 before) r).
    split; [|split; [|split; [|split]]].
    + rewrite ec_update_ratings_run. unfold ec_update. fold rr. now rewrite Hlt.
    + intros d Hd. rewrite Hsplit. apply rows_fold_earlier; [|assumption].
      now rewrite <- Hsplit.
    + intros d Hd. now apply rows_fold_other.
    + apply ec_update_row_run; auto.
    + rewrite Hsplit at 1. apply rows_fold_row. now rewrite <- Hsplit.
  - set (F := elo_rating (k_factor self) (initial_rating self) rr N).
    exists (rows_fold F rr1 before), (rows_fold F rr before), (F (rows_fold F rr1 before) r).
    split; [|split; [|split; [|split]]].
    + rewrite elo_update_ratings_run by assumption.
      unfold elo_update. fold rr. now rewrite Hlt.
    + intros d Hd. rewrite Hsplit. apply rows_fold_earlier; [|assumption].
      now rewrite <- Hsplit.
    + intros d Hd. now apply rows_fold_other.
    + apply elo_update_row_run; auto.
    + rewrite Hsplit at 1. apply rows_fold_row. now rewrite <- Hsplit.
Qed.

Lemma update_ratings_reads_earlier_rows_updated_witness :
  exists seen final v,
    EloCalculator.update_ratings two_driver_event new_engine
    = (Return tt, with_ratings new_engine final)
    /\ dict_get seen "A" = dict_get final "A"
    /\ EloCalculator.update_row (dropna two_driver_event) 2 ("B", 2%Z)
         (with_ratings new_engine seen)
       = (Return tt, with_ratings new_engine (dict_set seen "B" v))
    /\ dict_get final "B" = Some v.
Proof.
  assert (Hnd : List.NoDup (competitors two_driver_event)).
  { repeat constructor; simpl; intuition discriminate. }
  assert (Hlen : (2 <= length (dropna two_driver_event))%nat) by (simpl; lia).
  destruct (update_ratings_reads_earlier_rows_updated new_engine two_driver_event
              [("A", 1%Z)] [] ("B", 2%Z) Hnd Hlen eq_refl)
    as [before [_ [[seen [final [v [H1 [H2 [_ [H4 H5]]]]]]] _]]].
  exists seen, final, v. split; [exact H1|]. split; [|split; [exact H4 | exact H5]].
  apply H2. simpl. now left.
Defined.

#[local] Open Scope R_scope.

Lemma Rpower_10_zero_gap (a : R) : Rpower 10 ((a - a) / 400) = 1.
Proof. replace ((a - a) / 400) with 0 by lra. apply Rpower_O. lra. Qed.

Lemma Rpower_10_gt_1 (x : R) : 0 < x -> 1 < Rpower 10 x.
Proof.
  intros Hx. rewrite <- (Rpower_O 10) by lra. apply Rpower_lt; lra.
Qed.

Lemma Rpower_10_lt_1 (x : R) : x < 0 -> Rpower 10 x < 1.
Proof.
  intros Hx. rewrite <- (Rpower_O 10) by lra. apply Rpower_lt; lra.
Qed.

(** C1, as stated, fails.  The two rows of the two-competitor scenario in
    the two possible orders leave different ratings for competitor A, in both
    files; and the snapshot that [elo_calculator.py] leaves is not the one
    computed from the ratings before the event. *)
Lemma update_ratings_depends_on_the_row_order :
  Permutation two_driver_event two_driver_event_reordered
  /\ dict_get (ratings (snd (EloCalculator.update_ratings two_driver_event new_engine))) "A"
     <> dict_get (ratings (snd (EloCalculator.update_ratings
                                  two_driver_event_reordered new_engine))) "A"
  /\ dict_get (ratings (snd (Elo.update_ratings two_driver_event new_engine))) "A"
     <> dict_get (ratings (snd (Elo.update_ratings
                                  two_driver_event_reordered new_engine))) "A"
  /\ ratings (snd (EloCalculator.update_ratings two_driver_event new_engine))
     <> update_from_snapshot new_engine two_driver_event.
Proof.
  split; [apply perm_swap|].
  split; [|split].
  - eval_engine. rewrite !Rpower_10_zero_gap. intros E.
    match type of E with context [Rpower 10 ?x] =>
      assert (Hx : x < 0) by lra;
      pose proof (Rpower_10_lt_1 x Hx) as Hlt;
      pose proof (Rpower_10_pos x) as Hpos;
      set (e := Rpower 10 x) in *
    end.
    injection E as E.
    assert (H : 1 / (1 + e) = 1 / 2) by lra.
    assert (He : e = 1) by (apply (f_equal (fun y => / y)) in H; field_simplify in H; lra).
    lra.
  - eval_engine. rewrite !Rpower_10_zero_gap. intros E.
    match type of E with context [Rpower 10 ?x] =>
      assert (Hx : x < 0) by lra;
      pose proof (Rpower_10_lt_1 x Hx) as Hlt;
      pose proof (Rpower_10_pos x) as Hpos;
      set (e := Rpower 10 x) in *
    end.
    injection E as E.
    assert (H : 1 / (1 + e) = 1 / 2) by lra.
    assert (He : e = 1) by (apply (f_equal (fun y => / y)) in H; field_simplify in H; lra).
    lra.
  - eval_engine. rewrite !Rpower_10_zero_gap. intros E.
    match type of E with context [Rpower 10 ?x] =>
      assert (Hx : 0 < x) by lra;
      pose proof (Rpower_10_gt_1 x Hx) as Hgt;
      set (e := Rpower 10 x) in *
    end.
    injection E as E.
    assert (H : 1 / (1 + e) = 1 / 2) by lra.
    assert (He : e = 1) by (apply (f_equal (fun y => / y)) in H; field_simplify in H; lra).
    lra.
Qed.

(** ** Properties of the engine: the two-competitor scenario *)

(** C2, as stated, fails on the scenario itself: the winner ends at 1512,
    but the second finisher does not end at 1488. *)
Lemma second_finisher_does_not_end_at_1488 :
  dict_get (ratings (snd (EloCalculator.update_ratings two_driver_event new_engine))) "A"
  = Some (Fin 1512)
  /\ dict_get (ratings (snd (EloCalculator.update_ratings two_driver_event new_engine))) "B"
     <> Some (Fin 1488).
Proof.
  split.
  - eval_engine. rewrite !Rpower_10_zero_gap. do 2 f_equal. lra.
  - eval_engine. rewrite !Rpower_10_zero_gap. intros E.
    match type of E with context [Rpower 10 ?x] =>
      assert (Hx : 0 < x) by lra;
      pose proof (Rpower_10_gt_1 x Hx) as Hgt;
      set (e := Rpower 10 x) in *
    end.
    injection E as E.
    assert (H : 1 / (1 + e) = 1 / 2) by lra.
    assert (He : e = 1) by (apply (f_equal (fun y => / y)) in H; field_simplify in H; lra).
    lra.
Qed.

Lemma two_rows_opponents (A B : string) (pa pb : Z) :
  A <> B ->
  opponents_of [(A, pa); (B, pb)] A = [(B, pb)]
  /\ opponents_of [(A, pa); (B, pb)] B = [(A, pa)].
Proof.
  intros Hne. unfold opponents_of. simpl.
  rewrite !String.eqb_refl.
  assert (E1 : String.eqb A B = false) by now apply String.eqb_neq.
  assert (E2 : String.eqb B A = false) by (apply String.eqb_neq; congruence).
  rewrite E1, E2. split; reflexivity.
Qed.

Lemma dict_get_init_dict_1500 (d : dict pyfloat) (l : list string) (k : string) (r0 : R) :
  In k l ->
  dict_get d k = None \/ dict_get d k = Some (Fin r0) ->
  dict_get (init_dict r0 l d) k = Some (Fin r0).
Proof.
  intros Hin [H | H].
  - apply dict_get_init_dict_new; [now apply dict_get_None | assumption].
  - rewrite dict_get_init_dict_old; [assumption|].
    apply dict_contains_In. unfold dict_contains. now rewrite H.
Qed.

(** C2, as the code has it.  Two competitors, both at 1500 (or new), with
    [K = 24]: the competitor of the first row, placed first, ends at exactly
    1512; the competitor of the second row, placed second, is then compared
    with the 1512 already stored and ends at [1500 - 24 / (1 + 10 ** 0.03)],
    strictly between 1488 and 1500. *)
Theorem two_equal_competitors_update (self : F1EloRating) (A B : string) :
  A <> B ->
  initial_rating self = 1500 ->
  k_factor self = 24 ->
  dict_get (ratings self) A = None \/ dict_get (ratings self) A = Some (Fin 1500) ->
  dict_get (ratings self) B = None \/ dict_get (ratings self) B = Some (Fin 1500) ->
  exists final b,
    EloCalculator.update_ratings
      [Row (Some A) (Some 1%Z); Row (Some B) (Some 2%Z)] self
    = (Return tt, with_ratings self final)
    /\ dict_get final A = Some (Fin 1512)
    /\ dict_get final B = Some (Fin b)
    /\ b = 1500 - 24 / (1 + Rpower 10 ((1512 - 1500) / 400))
    /\ 1488 < b < 1500.
Proof.
  intros Hne Hr0 HK HA HB.
  set (rr := [(A, 1%Z); (B, 2%Z)]).
  set (before := init_dict 1500 (unique (map fst rr)) (ratings self)).
  assert (HbA : dict_get before A = Some (Fin 1500)).
  { apply dict_get_init_dict_1500; [|assumption]. apply In_unique. simpl. tauto. }
  assert (HbB : dict_get before B = Some (Fin 1500)).
  { apply dict_get_init_dict_1500; [|assumption]. apply In_unique. simpl. tauto. }
  destruct (two_rows_opponents A B 1 2 Hne) as [HoA HoB].
  set (vA := ec_rating 24 rr 2 before (A, 1%Z)).
  assert (HvA : vA = Fin 1512).
  { unfold vA, ec_rating. cbn [fst snd]. fold rr in HoA. rewrite HoA.
    unfold rating_in. cbn [map fst]. rewrite HbA, HbB.
    cbn -[Rpower IZR Rplus Rminus Rmult Rdiv Rinv]. rewrite Rpower_10_zero_gap.
    f_equal. change (IZR (1 - 1)) with 0. change (IZR (2 - 1)) with 1. lra. }
  set (d1 := dict_set before A vA).
  assert (Hd1A : dict_get d1 A = Some (Fin 1512)).
  { unfold d1. rewrite dict_get_set_eq. now rewrite HvA. }
  assert (Hd1B : dict_get d1 B = Some (Fin 1500)).
  { unfold d1. now rewrite dict_get_set_ne. }
  set (vB := ec_rating 24 rr 2 d1 (B, 2%Z)).
  assert (HvB : vB = Fin (1500 - 24 / (1 + Rpower 10 ((1512 - 1500) / 400)))).
  { unfold vB, ec_rating. cbn [fst snd]. fold rr in HoB. rewrite HoB.
    unfold rating_in. cbn [map fst]. rewrite Hd1A, Hd1B.
    cbn -[Rpower IZR Rplus Rminus Rmult Rdiv Rinv].
    f_equal. change (IZR (2 - 1)) with 1.
    pose proof (Rpower_10_pos ((1512 - 1500) / 400)) as Hp.
    field. lra. }
  exists (dict_set d1 B vB), (1500 - 24 / (1 + Rpower 10 ((1512 - 1500) / 400))).
  split; [|split; [|split; [|split]]].
  - rewrite ec_update_ratings_run. unfold ec_update. rewrite Hr0, HK. reflexivity.
  - rewrite dict_get_set_ne by congruence. assumption.
  - rewrite dict_get_set_eq. now rewrite HvB.
  - reflexivity.
  - assert (Hx : 0 < (1512 - 1500) / 400) by lra.
    pose proof (Rpower_10_gt_1 _ Hx) as Hgt.
    set (e := Rpower 10 ((1512 - 1500) / 400)) in *.
    assert (H1 : 0 < 24 / (1 + e)) by (apply Rdiv_lt_0_compat; lra).
    assert (H2 : 24 / (1 + e) < 12).
    { apply Rmult_lt_reg_r with (1 + e); [lra|].
      unfold Rdiv. rewrite Rmult_assoc, Rinv_l by lra. lra. }
    lra.
Qed.

Lemma two_equal_competitors_update_witness :
  exists final b,
    EloCalculator.update_ratings two_driver_event new_engine
    = (Return tt, with_ratings new_engine final)
    /\ dict_get final "A" = Some (Fin 1512)
    /\ dict_get final "B" = Some (Fin b)
    /\ 1488 < b < 1500.
Proof.
  assert (Hne : "A" <> "B") by discriminate.
  destruct (two_equal_competitors_update new_engine "A" "B" Hne eq_refl eq_refl
              (or_introl eq_refl) (or_introl eq_refl))
    as [final [b [H1 [H2 [H3 [_ H5]]]]]].
  exists final, b. repeat split; try assumption; apply H5.
Defined.

(** ** The position score of [elo.py] *)

(** X4. With at least two drivers, [normalize_race_position] never raises and
    reverses the order of positions: a position that is not worse gets a score
    that is not lower; every score lies between 0 and 1, any position up to 1
    scores exactly 1 and any position from [total_drivers] on scores exactly
    0. *)
Theorem normalize_race_position_order (self : F1EloRating) (p q N : Z) :
  (2 <= N)%Z ->
  (p <= q)%Z ->
  exists sp sq,
    Elo.normalize_race_position p N self = (Return sp, self)
    /\ Elo.normalize_race_position q N self = (Return sq, self)
    /\ 0 <= sq <= sp /\ sp <= 1
    /\ ((p <= 1)%Z -> sp = 1)
    /\ ((N <= q)%Z -> sq = 0).
Proof.
  intros HN Hpq. do 2 eexists.
  split; [apply normalize_race_position_run; lia|].
  split; [apply normalize_race_position_run; lia|].
  unfold linear_score.
  set (p' := Z.max 1 (Z.min p N)). set (q' := Z.max 1 (Z.min q N)).
  assert (Hp : (1 <= p' <= q')%Z) by (unfold p', q'; lia).
  assert (Hq : (q' <= N)%Z) by (unfold q'; lia).
  assert (H0 : 0 <= IZR (p' - 1)) by (apply IZR_le; lia).
  assert (H1 : IZR (p' - 1) <= IZR (q' - 1)) by (apply IZR_le; lia).
  assert (H2 : IZR (q' - 1) <= IZR (N - 1)) by (apply IZR_le; lia).
  assert (H3 : 0 < IZR (N - 1)) by (apply IZR_lt; lia).
  assert (Hi : 0 < / IZR (N - 1)) by now apply Rinv_0_lt_compat.
  assert (Hdiv : forall x y, x <= y -> x / IZR (N - 1) <= y / IZR (N - 1)).
  { intros x y Hxy. unfold Rdiv. apply Rmult_le_compat_r; lra. }
  assert (Hone : IZR (N - 1) / IZR (N - 1) = 1) by (field; lra).
  pose proof (Hdiv _ _ H0) as D0. pose proof (Hdiv _ _ H1) as D1.
  pose proof (Hdiv _ _ H2) as D2.
  replace (0 / IZR (N - 1)) with 0 in D0 by (unfold Rdiv; lra).
  split; [lra|]. split; [lra|]. split.
  - intros Hp1. replace p' with 1%Z by (unfold p'; lia).
    change (IZR (1 - 1)) with 0. unfold Rdiv. lra.
  - intros HNq. replace q' with N by (unfold q'; lia). lra.
Qed.

Lemma normalize_race_position_order_witness :
  exists sp sq,
    Elo.normalize_race_position 0 20 new_engine = (Return sp, new_engine)
    /\ Elo.normalize_race_position 25 20 new_engine = (Return sq, new_engine)
    /\ sp = 1 /\ sq = 0.
Proof.
  assert (HN : (2 <= 20)%Z) by lia.
  assert (Hpq : (0 <= 25)%Z) by lia.
  destruct (normalize_race_position_order new_engine 0 25 20 HN Hpq)
    as [sp [sq [H1 [H2 [_ [_ [H5 H6]]]]]]].
  exists sp, sq. split; [exact H1|]. split; [exact H2|].
  split; [apply H5; lia | apply H6; lia].
Defined.

(** ** What a call leaves alone, whether it returns or raises *)

#[local] Close Scope R_scope.

Section Steps.

Variable R : F1EloRating -> F1EloRating -> Prop.
Hypothesis R_refl : forall st, R st st.
Hypothesis R_trans : forall a b c, R a b -> R b c -> R a c.

Lemma steps_reader {A} (c : py A) : (forall st, snd (c st) = st) -> steps R c.
Proof using R_refl. intros H st. rewrite H. apply R_refl. Qed.

Lemma steps_ret {A} (a : A) : steps R (ret a).
Proof using R_refl. now apply steps_reader. Qed.

Lemma steps_raise {A} (e : exn) : steps R (@raise A e).
Proof using R_refl. now apply steps_reader. Qed.

Lemma steps_bind {A B} (c : py A) (k : A -> py B) :
  steps R c -> (forall a, steps R (k a)) -> steps R (bind c k).
Proof using R_trans.
  intros Hc Hk st. unfold bind. specialize (Hc st).
  destruct (c st) as [[a | e] st']; simpl in *.
  - eapply R_trans; [exact Hc | apply Hk].
  - exact Hc.
Qed.

Lemma steps_for_each {A} (l : list A) (body : A -> py unit) :
  (forall x, In x l -> steps R (body x)) -> steps R (for_each l body).
Proof using R_refl R_trans.
  induction l as [|x t IH]; intros H; simpl.
  - apply steps_ret.
  - apply steps_bind; [apply H; now left|].
    intros _. apply IH. intros y Hy. apply H. now right.
Qed.

Lemma steps_comprehension {A B} (l : list A) (f : A -> py B) :
  (forall x, In x l -> steps R (f x)) -> steps R (comprehension l f).
Proof using R_refl R_trans.
  induction l as [|x t IH]; intros H; simpl.
  - apply steps_ret.
  - apply steps_bind; [apply H; now left|].
    intros y. apply steps_bind; [|intros ys; apply steps_ret].
    apply IH. intros z Hz. apply H. now right.
Qed.

Lemma steps_getitem k : steps R (getitem k).
Proof using R_refl.
  apply steps_reader. intros st. unfold getitem. now destruct (dict_get _ _).
Qed.

Lemma steps_get_default k v : steps R (get_default k v).
Proof using R_refl.
  apply steps_reader. intros st. unfold get_default. now destruct (dict_get _ _).
Qed.

Lemma steps_truediv a b : steps R (truediv a b).
Proof using R_refl.
  apply steps_reader. intros st. unfold truediv. now destruct (b =? 0)%Z.
Qed.

Lemma steps_len_div l : steps R (Elo.len_div l).
Proof using R_refl.
  apply steps_reader. intros st. unfold Elo.len_div. now destruct (length l =? 0)%nat.
Qed.

Lemma steps_initialize (rr : list (string * Z)) :
  (forall k v, In k (map fst rr) -> steps R (setitem k v)) ->
  steps R (initialize_new_drivers rr).
Proof using R_refl R_trans.
  intros Hset. unfold initialize_new_drivers.
  apply steps_for_each. intros driver Hd. apply (proj1 (In_unique _ _)) in Hd.
  apply steps_bind; [now apply steps_reader|].
  intros [|]; [apply steps_ret|].
  apply steps_bind; [now apply steps_reader|].
  intros r0. now apply Hset.
Qed.

Lemma steps_ec_update_row rr N r :
  (forall v, steps R (setitem (fst r) v)) ->
  steps R (EloCalculator.update_row rr N r).
Proof using R_refl R_trans.
  intros Hset. unfold EloCalculator.update_row, EloCalculator.actual_score_of,
    EloCalculator.expected_score_of.
  apply steps_bind.
  { apply steps_bind; [apply steps_truediv | intros; apply steps_ret]. }
  intros actual_score. apply steps_bind.
  { apply steps_bind; [|intros; apply steps_ret].
    apply steps_comprehension. intros opp _.
    apply steps_bind; [apply steps_getitem|]. intros ro.
    apply steps_bind; [apply steps_getitem|]. intros rd. apply steps_ret. }
  intros expected_score. apply steps_bind; [apply steps_getitem|].
  intros rd. apply steps_bind; [now apply steps_reader|].
  intros k. apply Hset.
Qed.

Lemma steps_elo_update_row rr N r :
  (forall v, steps R (setitem (fst r) v)) ->
  steps R (Elo.update_row rr N r).
Proof using R_refl R_trans.
  intros Hset. unfold Elo.update_row, Elo.normalize_race_position,
    Elo.expected_scores_of.
  apply steps_bind.
  { apply steps_bind; [apply steps_truediv | intros; apply steps_ret]. }
  intros actual_score. apply steps_bind.
  { apply steps_comprehension. intros opp _.
    apply steps_bind; [now apply steps_reader|]. intros r0.
    apply steps_bind; [apply steps_get_default|]. intros ro.
    apply steps_bind; [apply steps_getitem|]. intros rd. apply steps_ret. }
  intros expected_scores. apply steps_bind; [apply steps_len_div|].
  intros expected_score. apply steps_bind; [now apply steps_reader|].
  intros k. apply steps_bind; [apply steps_getitem|].
  intros rd. apply Hset.
Qed.

Lemma steps_update_ratings (ev : DataFrame) :
  (forall k v, In k (competitors ev) -> steps R (setitem k v)) ->
  steps R (EloCalculator.update_ratings ev) /\ steps R (Elo.update_ratings ev).
Proof using R_refl R_trans.
  intros Hset. unfold EloCalculator.update_ratings, Elo.update_ratings.
  destruct (length (dropna ev) <? 2)%nat; split; try apply steps_ret.
  - apply steps_bind; [now apply steps_initialize|]. intros _.
    apply steps_for_each. intros r Hr. apply steps_ec_update_row.
    intros v. apply Hset. now apply in_map.
  - apply steps_bind; [now apply steps_initialize|]. intros _.
    apply steps_for_each. intros r Hr. apply steps_elo_update_row.
    intros v. apply Hset. now apply in_map.
Qed.

End Steps.

Lemma same_at_refl d st : same_at d st st.
Proof. now repeat split. Qed.

Lemma same_at_trans d a b c : same_at d a b -> same_at d b c -> same_at d a c.
Proof. unfold same_at. intros [H1 [H2 H3]] [H4 [H5 H6]]. repeat split; congruence. Qed.

Lemma same_at_setitem d k v : k <> d -> steps (same_at d) (setitem k v).
Proof.
  intros Hne st. unfold same_at, setitem. simpl.
  rewrite dict_get_set_ne by assumption. now repeat split.
Qed.

Lemma keeps_keys_setitem k v : steps keeps_keys (setitem k v).
Proof. intros st x Hx. unfold setitem. simpl. apply In_keys_set. now left. Qed.

(** X5. [update_ratings], in either file and whether it returns or raises,
    leaves the rating of every competitor that has no valid row in the event
    as it was (present or absent), and never changes the initial rating or
    the K-factor. *)
Theorem update_ratings_leaves_the_others (self : F1EloRating) (ev : DataFrame)
    (d : string) :
  ~ In d (competitors ev) ->
  same_at d self (snd (EloCalculator.update_ratings ev self))
  /\ same_at d self (snd (Elo.update_ratings ev self)).
Proof.
  intros Hout.
  destruct (steps_update_ratings (same_at d) (same_at_refl d) (same_at_trans d) ev)
    as [H1 H2].
  - intros k v Hk. apply same_at_setitem. congruence.
  - split; [apply H1 | apply H2].
Qed.

Lemma update_ratings_leaves_the_others_witness :
  same_at "C" (with_ratings new_engine [("C", Fin 1700%R)])
    (snd (EloCalculator.update_ratings two_driver_event
            (with_ratings new_engine [("C", Fin 1700%R)])))
  /\ same_at "C" (with_ratings new_engine [("C", Fin 1700%R)])
       (snd (Elo.update_ratings duplicate_competitor_event
               (with_ratings new_engine [("C", Fin 1700%R)]))).
Proof.
  split.
  - apply (update_ratings_leaves_the_others _ two_driver_event "C").
    simpl. intuition discriminate.
  - apply (update_ratings_leaves_the_others _ duplicate_competitor_event "C").
    simpl. intuition discriminate.
Defined.

(** X6. [elo.py]'s [update_ratings] never removes a competitor from the
    snapshot, even when it raises half way through an event. *)
Theorem elo_update_ratings_keeps_keys (self : F1EloRating) (ev : DataFrame)
    (k : string) :
  In k (keys (ratings self)) ->
  In k (keys (ratings (snd (Elo.update_ratings ev self)))).
Proof.
  intros Hk.
  destruct (steps_update_ratings keeps_keys) with (ev := ev) as [_ H].
  - intros st x Hx. exact Hx.
  - intros a b c Hab Hbc x Hx. apply Hbc, Hab, Hx.
  - intros x v _. apply keeps_keys_setitem.
  - now apply H.
Qed.

Lemma elo_update_ratings_keeps_keys_witness :
  In "C" (keys (ratings (snd (Elo.update_ratings duplicate_competitor_event
                                (with_ratings new_engine [("C", Fin 1700%R)]))))).
Proof.
  apply elo_update_ratings_keeps_keys. simpl. now left.
Defined.

(** ** The order of the keys *)

Lemma unique_from_spec (seen l : list string) :
  List.NoDup (unique_from seen l)
  /\ forall x, In x (unique_from seen l) -> ~ In x seen.
Proof.
  revert seen. induction l as [|y t IH]; intros seen; simpl.
  - split; [constructor | tauto].
  - destruct (existsb (String.eqb y) seen) eqn:E; [apply IH|].
    destruct (IH (y :: seen)) as [Hnd Hout].
    assert (Hy : ~ In y seen).
    { intros H. apply existsb_eqb_In in H. congruence. }
    split.
    + constructor; [|assumption]. intros H. apply Hout in H. apply H. now left.
    + intros x [<- | Hx]; [assumption|]. apply Hout in Hx.
      intros H. apply Hx. now right.
Qed.

Lemma NoDup_unique (l : list string) : List.NoDup (unique l).
Proof. apply unique_from_spec. Qed.

Lemma dict_contains_set_ne {V} (d : dict V) k k' v :
  k <> k' -> dict_contains (dict_set d k v) k' = dict_contains d k'.
Proof. intros Hne. unfold dict_contains. now rewrite dict_get_set_ne. Qed.

Lemma keys_init_dict r0 (l : list string) (d : dict pyfloat) :
  List.NoDup l ->
  keys (init_dict r0 l d)
  = keys d ++ List.filter (fun k => negb (dict_contains d k)) l.
Proof.
  unfold init_dict. revert d. induction l as [|y t IH]; intros d Hnd; simpl.
  - now rewrite app_nil_r.
  - inversion Hnd as [|? ? Hy Ht]; subst.
    destruct (dict_contains d y) eqn:E; simpl.
    + now apply IH.
    + rewrite IH by assumption. rewrite keys_set_absent by assumption.
      rewrite <- app_assoc. simpl. do 2 f_equal.
      apply filter_ext_in. intros k Hk. f_equal.
      apply dict_contains_set_ne. intros ->. contradiction.
Qed.

(** X7. When an event is processed, [elo_calculator.py] keeps the competitors
    already in the snapshot in their order and appends the new competitors of
    the event behind them, in order of first appearance in the event. *)
Theorem update_ratings_appends_new_competitors (self : F1EloRating) (ev : DataFrame) :
  processed ev ->
  keys (ratings (snd (EloCalculator.update_ratings ev self)))
  = keys (ratings self)
    ++ List.filter (fun k => negb (dict_contains (ratings self) k))
                   (unique (competitors ev)).
Proof.
  unfold processed, competitors. intros Hp.
  rewrite ec_update_ratings_run. cbn [snd ratings with_ratings].
  unfold ec_update. apply Nat.ltb_ge in Hp. rewrite Hp.
  rewrite ec_rows_keys.
  - apply keys_init_dict, NoDup_unique.
  - intros r Hr. apply In_keys_init_dict. right. apply In_unique. now apply in_map.
Qed.

Lemma update_ratings_appends_new_competitors_witness :
  keys (ratings (snd (EloCalculator.update_ratings event_with_dropped_row
                        (with_ratings new_engine [("C", Fin 1700%R); ("Z", Fin 1400%R)]))))
  = ["C"; "Z"; "A"].
Proof.
  rewrite update_ratings_appends_new_competitors.
  - reflexivity.
  - unfold processed. simpl. lia.
Defined.

(** ** A NaN rating spreads *)

#[local] Open Scope R_scope.








(** ** More on the rating store *)

#[local] Close Scope R_scope.

Section StoreMore.
Import DatabaseManager.

Lemma save_ratings_in ratings_df now (t : table) driver :
  In driver (map fst ratings_df) ->
  exists rating,
    In (driver, rating) ratings_df
    /\ save_ratings ratings_df now t !! driver = Some (DbRow rating now).
Proof.
  unfold save_ratings. revert t.
  induction ratings_df as [|[k v] l IH]; intros t Hin; simpl in *; [tauto|].
  destruct (in_dec string_dec driver (map fst l)) as [Hl | Hl].
  - destruct (IH (insert_or_replace k v now t) Hl) as [r [H1 H2]].
    exists r. split; [now right | exact H2].
  - destruct Hin as [-> | Hin]; [|contradiction].
    exists v. split; [now left|].
    change (save_ratings l now (insert_or_replace driver v now t) !! driver
            = Some (DbRow v now)).
    rewrite save_ratings_other by assumption. apply lookup_insert_eq.
Qed.

Lemma save_ratings_forgets ratings_df now (t1 t2 : table) driver :
  In driver (map fst ratings_df) ->
  save_ratings ratings_df now t1 !! driver = save_ratings ratings_df now t2 !! driver.
Proof.
  unfold save_ratings. revert t1 t2.
  induction ratings_df as [|[k v] l IH]; intros t1 t2 Hin; simpl in *; [tauto|].
  destruct (in_dec string_dec driver (map fst l)) as [Hl | Hl].
  - now apply IH.
  - destruct Hin as [-> | Hin]; [|contradiction].
    change (save_ratings l now (insert_or_replace driver v now t1) !! driver
            = save_ratings l now (insert_or_replace driver v now t2) !! driver).
    rewrite !save_ratings_other by assumption.
    unfold insert_or_replace. now rewrite !lookup_insert_eq.
Qed.

(** X12. [get_last_update_time] returns [None] exactly when the table has no
    row. *)
Theorem get_last_update_time_None_iff (t : table) :
  get_last_update_time t = PyNone <-> t = ∅.
Proof.
  unfold get_last_update_time, select_max_last_updated, fetchone, max_last_updated.
  simpl. rewrite <- (map_to_list_empty_iff t).
  destruct (map_to_list t) as [|kv l]; simpl; split; intros H;
    try reflexivity; discriminate.
Qed.

Lemma leb_refl (s : string) : String.leb s s = true.
Proof. now destruct (String.leb_total s s). Qed.

Lemma fold_text_max_latest (now : string) (l : list string) (acc : string) :
  acc = now \/ In now l ->
  String.leb acc now = true ->
  (forall x, In x l -> String.leb x now = true) ->
  fold_left text_max l acc = now.
Proof.
  revert acc. induction l as [|b t IH]; intros acc Hnow Hacc Hl; simpl.
  - destruct Hnow as [H | []]. exact H.
  - assert (Hb : String.leb b now = true) by (apply Hl; now left).
    apply IH.
    + unfold text_max. destruct Hnow as [-> | [-> | Hin]].
      * destruct (String.leb now b) eqn:E; [|now left].
        left. now apply String.leb_antisym.
      * rewrite Hacc. now left.
      * now right.
    + unfold text_max. now destruct (String.leb acc b).
    + intros x Hx. apply Hl. now right.
Qed.

Lemma last_update_after_save
    (ratings_df : list (string * pyfloat)) (now : string) (t : table) :
  ratings_df <> [] ->
  (forall driver row, t !! driver = Some row ->
                      String.leb (last_updated row) now = true) ->
  get_last_update_time (save_ratings ratings_df now t) = PyStr now.
Proof.
  intros Hne Hold.
  set (t' := save_ratings ratings_df now t).
  assert (Hall : forall kv, In kv (map_to_list t') ->
                            String.leb (last_updated (snd kv)) now = true).
  { intros [k row] Hin. apply list_elem_of_In, elem_of_map_to_list in Hin. simpl.
    destruct (in_dec string_dec k (map fst ratings_df)) as [Hk | Hk].
    - destruct (save_ratings_in ratings_df now t k Hk) as [r [_ Hr]].
      fold t' in Hr. rewrite Hr in Hin. injection Hin as <-. apply leb_refl.
    - unfold t' in Hin. rewrite save_ratings_other in Hin by assumption.
      eapply Hold, Hin. }
  assert (Hsome : exists kv, In kv (map_to_list t') /\ last_updated (snd kv) = now).
  { destruct ratings_df as [|[k v] l]; [congruence|].
    destruct (save_ratings_in ((k, v) :: l) now t k) as [r [_ Hr]]; [now left|].
    exists (k, DbRow r now). split; [|reflexivity].
    apply list_elem_of_In, elem_of_map_to_list. exact Hr. }
  unfold get_last_update_time, select_max_last_updated, fetchone, max_last_updated.
  simpl. fold t'.
  destruct Hsome as [kv0 [Hin0 Hnow0]].
  assert (Hin' : In now (map (fun kv => last_updated (snd kv)) (map_to_list t'))).
  { apply in_map_iff. exists kv0. auto. }
  assert (Hall' : forall x, In x (map (fun kv => last_updated (snd kv)) (map_to_list t')) ->
                            String.leb x now = true).
  { intros x Hx. apply in_map_iff in Hx. destruct Hx as [kv [<- Hkv]]. now apply Hall. }
  destruct (map (fun kv => last_updated (snd kv)) (map_to_list t')) as [|s l];
    [destruct Hin'|].
  f_equal. apply fold_text_max_latest.
  - destruct Hin' as [-> | H]; [now left | now right].
  - apply Hall'. now left.
  - intros x Hx. apply Hall'. now right.
Qed.

(** X13. After [save_ratings] has written a frame with at least one row,
    [get_last_update_time] returns the timestamp of that write, provided no
    row already in the table carries a later timestamp (bytewise, which for
    ISO timestamps is the order in time). *)
Theorem get_last_update_time_after_save
    (ratings_df : list (string * pyfloat)) (now : string) (t : table) :
  ratings_df <> [] ->
  (forall driver row, t !! driver = Some row ->
                      String.leb (last_updated row) now = true) ->
  get_last_update_time (save_ratings ratings_df now t) = PyStr now.
Proof. apply last_update_after_save. Qed.

Lemma get_last_update_time_after_save_witness :
  get_last_update_time (save_ratings saved_frame "2024-03-04T10:00:00" stored_table)
  = PyStr "2024-03-04T10:00:00".
Proof.
  apply get_last_update_time_after_save.
  - discriminate.
  - intros driver row H. unfold stored_table in H.
    apply lookup_singleton_Some in H. destruct H as [_ <-]. reflexivity.
Defined.

(** X14. A later save over the same competitors forgets the earlier one:
    when every competitor of the first frame is also in the second, saving
    the first and then the second leaves the table that saving the second
    alone leaves. *)
Theorem save_ratings_last_write_wins
    (df1 df2 : list (string * pyfloat)) (now1 now2 : string) (t : table) :
  incl (map fst df1) (map fst df2) ->
  save_ratings df2 now2 (save_ratings df1 now1 t) = save_ratings df2 now2 t.
Proof.
  intros Hincl. apply map_eq. intros k.
  destruct (in_dec string_dec k (map fst df2)) as [Hk | Hk].
  - now apply save_ratings_forgets.
  - rewrite !save_ratings_other; auto.
Qed.

Lemma save_ratings_last_write_wins_witness :
  save_ratings saved_frame "2024-03-11T10:00:00"
    (save_ratings saved_frame "2024-03-04T10:00:00" stored_table)
  = save_ratings saved_frame "2024-03-11T10:00:00" stored_table.
Proof.
  apply save_ratings_last_write_wins. apply incl_refl.
Defined.

End StoreMore.

Section StoreLoad.
Import DatabaseManager.

Variable order_by : list (string * pyfloat) -> list (string * pyfloat).
Hypothesis order_by_perm : forall l, Permutation l (order_by l).

Lemma to_dict_fold_other (rows : list (string * pyfloat)) (acc : dict pyfloat) d :
  ~ In d (map fst rows) ->
  dict_get (fold_left (fun d row => dict_set d (fst row) (snd row)) rows acc) d
  = dict_get acc d.
Proof using Type.
  revert acc. induction rows as [|[k v] l IH]; intros acc Hout; simpl in *.
  - reflexivity.
  - rewrite IH by tauto. apply dict_get_set_ne. tauto.
Qed.

Lemma to_dict_lookup (rows : list (string * pyfloat)) d r :
  List.NoDup (map fst rows) ->
  In (d, r) rows ->
  dict_get (to_dict rows) d = Some r.
Proof using Type.
  unfold to_dict. generalize (@nil (string * pyfloat)) as acc.
  induction rows as [|[k v] l IH]; intros acc Hnd Hin; simpl in *; [tauto|].
  inversion Hnd as [|? ? Hk Hl]; subst.
  destruct Hin as [E | Hin].
  - inversion E; subst. rewrite to_dict_fold_other by assumption.
    apply dict_get_set_eq.
  - now apply IH.
Qed.

Lemma get_ratings_rows (t : table) d r :
  In (d, r) (get_ratings order_by t)
  <-> exists row, t !! d = Some row /\ r = elo_rating row.
Proof using order_by_perm.
  unfold get_ratings. split.
  - intros Hin. apply (Permutation_in _ (Permutation_sym (order_by_perm _))) in Hin.
    apply in_map_iff in Hin. destruct Hin as [[k row] [E Hin]].
    simpl in E. inversion E; subst.
    exists row. split; [|reflexivity].
    now apply elem_of_map_to_list, list_elem_of_In.
  - intros [row [Hrow ->]]. apply (Permutation_in _ (order_by_perm _)).
    apply in_map_iff. exists (d, row). split; [reflexivity|].
    now apply list_elem_of_In, elem_of_map_to_list.
Qed.

Lemma get_ratings_NoDup (t : table) : List.NoDup (map fst (get_ratings order_by t)).
Proof using order_by_perm.
  unfold get_ratings.
  eapply Permutation_NoDup; [apply Permutation_map, order_by_perm|].
  rewrite map_map. simpl.
  apply NoDup_ListNoDup. apply (NoDup_fst_map_to_list t).
Qed.

Lemma load_reflects_the_table (t : table) (elo : F1EloRating) d :
  ratings elo = [] ->
  (t !! d = None ->
   dict_get (ratings (snd (load_existing_ratings order_by t elo))) d = None)
  /\ (forall row, t !! d = Some row ->
        dict_get (ratings (snd (load_existing_ratings order_by t elo))) d
        = Some (elo_rating row)).
Proof using order_by_perm.
  intros Hempty.
  assert (Hload : forall r, In (d, r) (get_ratings order_by t) ->
            dict_get (ratings (snd (load_existing_ratings order_by t elo))) d = Some r).
  { intros r Hin. unfold load_existing_ratings.
    destruct (get_ratings order_by t) as [|x l] eqn:E; [destruct Hin|].
    cbn [snd ratings with_ratings]. rewrite <- E in *.
    apply to_dict_lookup; [apply get_ratings_NoDup | assumption]. }
  split.
  - intros Hnone. unfold load_existing_ratings.
    destruct (get_ratings order_by t) as [|x l] eqn:E.
    + simpl. now rewrite Hempty.
    + cbn [snd ratings with_ratings]. rewrite <- E.
      unfold to_dict. rewrite to_dict_fold_other; [reflexivity|].
      intros Hin. apply in_map_iff in Hin. destruct Hin as [[k r] [Hk Hin]].
      simpl in Hk. subst k. apply get_ratings_rows in Hin.
      destruct Hin as [row [Hrow _]]. congruence.
  - intros row Hrow. apply Hload. apply get_ratings_rows. eauto.
Qed.

End StoreLoad.

Section StoreRoundTrip.
Import DatabaseManager.

(** X15. Whatever order the database returns the rows in, the start of
    [process_historical_data] gives a new engine exactly the stored ratings:
    a competitor without a row is absent from the snapshot, and a competitor
    with a row (holding a number) has that number as rating. *)
Theorem load_existing_ratings_reads_the_table
    (order_by : list (string * pyfloat) -> list (string * pyfloat))
    (t : table) (d : string) :
  (forall l, Permutation l (order_by l)) ->
  (t !! d = None ->
   dict_get (ratings (snd (load_existing_ratings order_by t new_engine))) d = None)
  /\ (forall row, t !! d = Some row -> is_nan (elo_rating row) = false ->
        dict_get (ratings (snd (load_existing_ratings order_by t new_engine))) d
        = Some (elo_rating row)).
Proof.
  intros Hperm.
  destruct (load_reflects_the_table order_by Hperm t new_engine d eq_refl) as [H1 H2].
  split; [exact H1|]. intros row Hrow _. now apply H2.
Qed.

Lemma load_existing_ratings_reads_the_table_witness :
  dict_get (ratings (snd (load_existing_ratings (fun l => l) stored_table new_engine)))
    "Kimi Raikkonen"
  = Some (Fin 1490)
  /\ dict_get (ratings (snd (load_existing_ratings (fun l => l) stored_table new_engine)))
       "Max Verstappen"
     = None.
Proof.
  destruct (load_existing_ratings_reads_the_table (fun l => l) stored_table
              "Kimi Raikkonen" (fun l => Permutation_refl l)) as [_ H1].
  destruct (load_existing_ratings_reads_the_table (fun l => l) stored_table
              "Max Verstappen" (fun l => Permutation_refl l)) as [H2 _].
  split.
  - apply (H1 (DbRow (Fin 1490) "2021-12-13T10:00:00")); reflexivity.
  - apply H2. reflexivity.
Defined.

(** X16. Save then load is the identity on ratings: a snapshot without a
    competitor twice, saved and then loaded into a new engine, gives every
    competitor of the snapshot the (finite) rating that was saved. *)
Theorem save_then_load_round_trip
    (order_by : list (string * pyfloat) -> list (string * pyfloat))
    (ratings_df : list (string * pyfloat)) (now : string) (t : table)
    (d : string) (r : pyfloat) :
  (forall l, Permutation l (order_by l)) ->
  List.NoDup (map fst ratings_df) ->
  In (d, r) ratings_df ->
  is_nan r = false ->
  dict_get (ratings (snd (load_existing_ratings order_by
                            (save_ratings ratings_df now t) new_engine))) d
  = Some r.
Proof.
  intros Hperm Hnd Hin _.
  destruct (load_reflects_the_table order_by Hperm
              (save_ratings ratings_df now t) new_engine d eq_refl) as [_ H].
  apply (H (DbRow r now)). now apply save_ratings_saved.
Qed.

Lemma save_then_load_round_trip_witness :
  dict_get (ratings (snd (load_existing_ratings (fun l => l)
                            (save_ratings saved_frame "2024-03-04T10:00:00" stored_table)
                            new_engine))) "Lando Norris"
  = Some (Fin 1550).
Proof.
  apply (save_then_load_round_trip (fun l => l) saved_frame).
  - intros l. apply Permutation_refl.
  - repeat constructor; simpl; intuition discriminate.
  - simpl. tauto.
  - reflexivity.
Defined.

End StoreRoundTrip.

(** ** A whole run: the order in which the races are processed *)

Lemma ascending_app {A} (lt : A -> A -> Prop) (l1 l2 : list A) :
  ascending lt l1 -> ascending lt l2 ->
  (forall a b, In a l1 -> In b l2 -> lt a b) ->
  ascending lt (l1 ++ l2).
Proof.
  induction l1 as [|x t IH]; intros H1 H2 H12; simpl in *; [assumption|].
  destruct H1 as [Hx Ht]. split.
  - intros y Hy. apply in_app_or in Hy. destruct Hy; auto.
  - apply IH; auto.
Qed.

Lemma ascending_map {A B} (ltA : A -> A -> Prop) (ltB : B -> B -> Prop)
    (f : A -> B) (l : list A) :
  (forall a b, ltA a b -> ltB (f a) (f b)) ->
  ascending ltA l -> ascending ltB (map f l).
Proof.
  intros Hf. induction l as [|x t IH]; simpl; [tauto|].
  intros [Hx Ht]. split; [|auto].
  intros y Hy. apply in_map_iff in Hy. destruct Hy as [a [<- Ha]]. auto.
Qed.

Lemma ascending_filter {A} (lt : A -> A -> Prop) (f : A -> bool) (l : list A) :
  ascending lt l -> ascending lt (List.filter f l).
Proof.
  induction l as [|x t IH]; simpl; [tauto|].
  intros [Hx Ht]. destruct (f x); simpl; [|auto].
  split; [|auto]. intros y Hy. apply filter_In in Hy. apply Hx, Hy.
Qed.

Lemma ascending_seq (a n : nat) : ascending Nat.lt (seq a n).
Proof.
  revert a. induction n as [|n IH]; intros a; simpl; [exact I|].
  split; [|apply IH]. intros y Hy. apply in_seq in Hy. unfold Nat.lt. lia.
Qed.

Lemma ascending_flat_map {A B} (ltA : A -> A -> Prop) (ltB : B -> B -> Prop)
    (g : A -> list B) (l : list A) :
  (forall x, ascending ltB (g x)) ->
  (forall x y a b, ltA x y -> In a (g x) -> In b (g y) -> ltB a b) ->
  ascending ltA l -> ascending ltB (flat_map g l).
Proof.
  intros Hg Hcross. induction l as [|x t IH]; simpl; [tauto|].
  intros [Hx Ht]. apply ascending_app; auto.
  intros a b Ha Hb. apply in_flat_map in Hb. destruct Hb as [y [Hy Hb]].
  eapply Hcross; eauto.
Qed.

Lemma race_calendar_ascending schedule_len start_year current_year :
  ascending key_lt (race_calendar schedule_len start_year current_year).
Proof.
  unfold race_calendar, F1DataCollector.years.
  apply ascending_flat_map with (ltA := Z.lt).
  - intros year. destruct (schedule_len year) as [n|]; [|exact I].
    unfold F1DataCollector.race_numbers. rewrite map_map.
    apply ascending_map with (ltA := Nat.lt); [|apply ascending_seq].
    intros a b Hab. unfold key_lt, key_ltb. simpl. unfold Nat.lt in Hab.
    rewrite Z.ltb_irrefl, Z.eqb_refl. simpl. apply Z.ltb_lt. lia.
  - intros x y a b Hxy Ha Hb.
    destruct (schedule_len x) as [n|]; [|destruct Ha].
    destruct (schedule_len y) as [m|]; [|destruct Hb].
    apply in_map_iff in Ha. destruct Ha as [i [<- _]].
    apply in_map_iff in Hb. destruct Hb as [j [<- _]].
    unfold key_lt, key_ltb. simpl. apply orb_true_iff. left. now apply Z.ltb_lt.
  - apply ascending_map with (ltA := Nat.lt); [|apply ascending_seq].
    intros a b Hab. unfold Nat.lt in Hab. lia.
Qed.

Lemma key_ltb_irrefl k : key_ltb k k = false.
Proof. unfold key_ltb. now rewrite Z.ltb_irrefl, Z.eqb_refl, Z.ltb_irrefl. Qed.

Lemma key_eqb_refl k : key_eqb k k = true.
Proof. unfold key_eqb. now rewrite !Z.eqb_refl. Qed.

Lemma key_eqb_eq a b : key_eqb a b = true <-> a = b.
Proof.
  unfold key_eqb. destruct a as [a1 a2], b as [b1 b2]. simpl.
  rewrite andb_true_iff, !Z.eqb_eq. split; [intros [-> ->]; reflexivity|].
  intros E. inversion E. auto.
Qed.

Lemma key_lt_neq a b : key_lt a b -> a <> b.
Proof. intros H ->. unfold key_lt in H. rewrite key_ltb_irrefl in H. discriminate. Qed.

Lemma insert_key_below k l :
  (forall x, In x l -> key_lt k x) -> insert_key k l = k :: l.
Proof.
  intros H. destruct l as [|x t]; [reflexivity|]. simpl.
  rewrite (H x) by now left. reflexivity.
Qed.

Lemma insert_key_again k l : insert_key k (k :: l) = k :: l.
Proof. simpl. now rewrite key_ltb_irrefl, key_eqb_refl. Qed.

Lemma group_keys_block k (df : DataFrame) (L : list (Z * Z)) :
  df <> [] ->
  (forall x, In x L -> key_lt k x) ->
  fold_right insert_key L (map key_of (F1DataCollector.tag (fst k) (snd k) df))
  = k :: L.
Proof.
  intros Hne HL. destruct df as [|r df]; [congruence|]. clear Hne.
  revert r. induction df as [|r' df IH]; intros r; simpl.
  - destruct k. now apply insert_key_below.
  - specialize (IH r'). simpl in IH. rewrite IH.
    destruct k. apply insert_key_again.
Qed.

Section Groups.
(** The frame collected for each race. *)
Variable c : Z * Z -> DataFrame.

Lemma key_of_tagged k r : In r ((tagged c) k) -> key_of r = k.
Proof using Type.
  unfold tagged, F1DataCollector.tag. intros H. apply in_map_iff in H.
  destruct H as [x [<- _]]. now destruct k.
Qed.

Lemma group_keys_flat_map (ks : list (Z * Z)) :
  ascending key_lt ks ->
  (forall k, In k ks -> c k <> []) ->
  group_keys (flat_map (tagged c) ks) = ks.
Proof using Type.
  unfold group_keys. induction ks as [|k t IH]; intros Hasc Hne; [reflexivity|].
  destruct Hasc as [Hk Ht]. simpl.
  rewrite map_app, fold_right_app.
  rewrite IH by (auto; intros; apply Hne; now right).
  apply group_keys_block; [apply Hne; now left | assumption].
Qed.

Lemma filter_tagged_same k :
  List.filter (fun r => key_eqb (key_of r) k) ((tagged c) k) = (tagged c) k.
Proof using Type.
  apply forallb_filter_id. apply forallb_forall. intros r Hr.
  rewrite (key_of_tagged k r Hr). apply key_eqb_refl.
Qed.

Lemma filter_none {A} (f : A -> bool) (l : list A) :
  (forall x, In x l -> f x = false) -> List.filter f l = [].
Proof using Type.
  induction l as [|x t IH]; intros H; simpl; [reflexivity|].
  rewrite H by now left. apply IH. intros y Hy. apply H. now right.
Qed.

Lemma filter_tagged_other (ks : list (Z * Z)) k :
  ~ In k ks ->
  List.filter (fun r => key_eqb (key_of r) k) (flat_map (tagged c) ks) = [].
Proof using Type.
  intros Hout. apply filter_none. intros r Hr.
  apply in_flat_map in Hr. destruct Hr as [k' [Hk' Hr]].
  rewrite (key_of_tagged k' r Hr).
  destruct (key_eqb k' k) eqn:E; [|reflexivity].
  apply key_eqb_eq in E. subst. contradiction.
Qed.

Lemma filter_flat_map_tagged (ks : list (Z * Z)) k :
  ascending key_lt ks ->
  In k ks ->
  List.filter (fun r => key_eqb (key_of r) k) (flat_map (tagged c) ks) = (tagged c) k.
Proof using Type.
  induction ks as [|k' t IH]; intros Hasc Hin; [destruct Hin|].
  destruct Hasc as [Hk' Ht]. simpl. rewrite List.filter_app.
  destruct Hin as [-> | Hin].
  - rewrite filter_tagged_same, filter_tagged_other; [apply app_nil_r|].
    intros H. apply Hk' in H. now apply key_lt_neq in H.
  - rewrite IH by assumption.
    rewrite filter_none; [reflexivity|].
    intros r Hr. rewrite (key_of_tagged k' r Hr).
    destruct (key_eqb k' k) eqn:E; [|reflexivity].
    apply key_eqb_eq in E. subst. apply Hk' in Hin. now apply key_lt_neq in Hin.
Qed.

Lemma groupby_flat_map_tagged (ks : list (Z * Z)) :
  ascending key_lt ks ->
  (forall k, In k ks -> c k <> []) ->
  groupby (flat_map (tagged c) ks) = map (fun k => (k, (tagged c) k)) ks.
Proof using Type.
  intros Hasc Hne. unfold groupby. rewrite group_keys_flat_map by assumption.
  apply map_ext_in. intros k Hk. f_equal. now apply filter_flat_map_tagged.
Qed.

Lemma flat_map_tagged_filter (ks : list (Z * Z)) :
  flat_map (tagged c) ks = flat_map (tagged c) (List.filter (fun k => not_empty (c k)) ks).
Proof using Type.
  induction ks as [|k t IH]; [reflexivity|]. simpl.
  destruct (c k) eqn:E; simpl.
  - unfold tagged at 1. rewrite E. simpl. exact IH.
  - now rewrite IH.
Qed.

Lemma result_tagged k : map F1DataCollector.result ((tagged c) k) = c k.
Proof using Type.
  unfold tagged, F1DataCollector.tag. rewrite map_map. simpl. apply map_id.
Qed.

End Groups.

Lemma fold_left_concat {A B C} (h : A -> list C) (g : A -> list B)
    (l : list A) (acc : list B) :
  (forall x, h x = [] -> g x = []) ->
  fold_left (fun acc x => match h x with [] => acc | _ :: _ => acc ++ g x end) l acc
  = acc ++ flat_map g l.
Proof.
  intros Hg. revert acc. induction l as [|x t IH]; intros acc; simpl.
  - now rewrite app_nil_r.
  - rewrite IH. destruct (h x) eqn:E.
    + now rewrite (Hg x E).
    + now rewrite app_assoc.
Qed.

Lemma flat_map_map_compose {A B C} (f : B -> list C) (g : A -> B) (l : list A) :
  flat_map f (map g l) = flat_map (fun x => f (g x)) l.
Proof. induction l as [|x t IH]; simpl; [reflexivity | now rewrite IH]. Qed.

Lemma flat_map_flat_map {A B C} (f : B -> list C) (g : A -> list B) (l : list A) :
  flat_map f (flat_map g l) = flat_map (fun x => flat_map f (g x)) l.
Proof.
  induction l as [|x t IH]; simpl; [reflexivity|].
  now rewrite flat_map_app, IH.
Qed.

Lemma filter_map_commute {A B} (f : B -> bool) (g : A -> B) (l : list A) :
  List.filter f (map g l) = map g (List.filter (fun x => f (g x)) l).
Proof.
  induction l as [|x t IH]; simpl; [reflexivity|].
  destruct (f (g x)); simpl; now rewrite IH.
Qed.

Lemma for_each_map {A B} (f : A -> B) (l : list A) (body : B -> py unit) :
  for_each (map f l) body = for_each l (fun x => body (f x)).
Proof. induction l as [|x t IH]; simpl; [reflexivity | now rewrite IH]. Qed.

Lemma for_each_ext {A} (l : list A) (body body' : A -> py unit) :
  (forall x, In x l -> body x = body' x) -> for_each l body = for_each l body'.
Proof.
  induction l as [|x t IH]; intros H; simpl; [reflexivity|].
  rewrite (H x) by now left. rewrite IH; [reflexivity|].
  intros y Hy. apply H. now right.
Qed.

Section RunOrder.
Variable schedule_len : Z -> option nat.
Variable fastf1 ergast : Z -> Z -> DataFrame.

Lemma process_year_flat_map (year : Z) :
  F1DataCollector._process_year schedule_len fastf1 ergast year
  = flat_map (tagged (collected fastf1 ergast))
      (match schedule_len year with
       | None => []
       | Some n => map (pair year) (F1DataCollector.race_numbers n)
       end).
Proof using Type.
  unfold F1DataCollector._process_year.
  destruct (schedule_len year) as [n|]; [|reflexivity].
  rewrite flat_map_map_compose. cbv zeta.
  rewrite (fold_left_concat
             (fun race_num => F1DataCollector.collect_race_results fastf1 ergast year race_num)
             (fun race_num => F1DataCollector.tag year race_num
                                (F1DataCollector.collect_race_results fastf1 ergast year race_num))).
  - reflexivity.
  - intros x E. now rewrite E.
Qed.

Lemma get_all_historical_data_flat_map (start_year current_year : Z) :
  F1DataCollector.get_all_historical_data schedule_len fastf1 ergast
    start_year current_year
  = flat_map (tagged (collected fastf1 ergast)) (race_calendar schedule_len start_year current_year).
Proof using Type.
  unfold F1DataCollector.get_all_historical_data, race_calendar. cbv zeta.
  rewrite (fold_left_concat
             (F1DataCollector._process_year schedule_len fastf1 ergast)
             (F1DataCollector._process_year schedule_len fastf1 ergast))
    by auto.
  rewrite flat_map_flat_map. simpl. apply flat_map_ext.
  intros year. apply process_year_flat_map.
Qed.

Lemma groups_of_a_run (start_year current_year : Z) :
  map (fun g => map F1DataCollector.result (snd g))
      (groupby (F1DataCollector.get_all_historical_data schedule_len fastf1 ergast
                  start_year current_year))
  = List.filter not_empty
      (map (collected fastf1 ergast) (race_calendar schedule_len start_year current_year)).
Proof using Type.
  rewrite get_all_historical_data_flat_map, flat_map_tagged_filter.
  rewrite groupby_flat_map_tagged.
  - rewrite map_map. simpl. rewrite filter_map_commute.
    apply map_ext. intros k. apply result_tagged.
  - apply ascending_filter, race_calendar_ascending.
  - intros k Hk. apply filter_In in Hk. destruct Hk as [_ Hk].
    intros E. rewrite E in Hk. discriminate.
Qed.

End RunOrder.

(** X17. A run hands the races to [update_ratings] in calendar order.  The
    loop of [process_historical_data] calls [update_ratings] once per group of
    [groupby], on the group's result frame; whatever the adaptors return, the
    list of these frames is exactly the list of the non-empty frames collected
    for the races of the seasons [start_year .. current_year], season by
    season and round by round.  A race whose frame is empty, and a season
    whose schedule cannot be fetched, are left out; a frame with rows is
    handed over even when fewer than two of its rows are valid. *)
Theorem races_reach_update_ratings_in_calendar_order
    (schedule_len : Z -> option nat) (fastf1 ergast : Z -> Z -> DataFrame)
    (start_year current_year : Z) :
  map (fun g => map F1DataCollector.result (snd g))
      (groupby (F1DataCollector.get_all_historical_data schedule_len fastf1 ergast
                  start_year current_year))
  = List.filter not_empty
      (map (collected fastf1 ergast)
           (race_calendar schedule_len start_year current_year)).
Proof. apply groups_of_a_run. Qed.

(** The loop over the groups, then, is the loop over those frames. *)
Lemma process_races_in_calendar_order
    (schedule_len : Z -> option nat) (fastf1 ergast : Z -> Z -> DataFrame)
    (start_year current_year : Z) (elo : F1EloRating) :
  process_races
    (F1DataCollector.get_all_historical_data schedule_len fastf1 ergast
       start_year current_year) elo
  = EloCalculator.process_events
      (List.filter not_empty
         (map (collected fastf1 ergast)
              (race_calendar schedule_len start_year current_year))) elo.
Proof.
  unfold process_races, EloCalculator.process_events.
  rewrite <- groups_of_a_run. now rewrite for_each_map.
Qed.

(** ** A whole run: what it leaves in the store *)

Section RunStore.
Import DatabaseManager.

Variable schedule_len : Z -> option nat.
Variable fastf1 ergast : Z -> Z -> DataFrame.
Variable order_by sort_values_desc : list (string * pyfloat) -> list (string * pyfloat).
Variable current_year : Z.
Variable current_time : string.
Variable start_year : Z.
Variable db : table.

Hypothesis order_by_perm : forall l, Permutation l (order_by l).
Hypothesis sort_values_perm : forall l, Permutation l (sort_values_desc l).

Lemma run_with_data :
  (run_events schedule_len fastf1 ergast current_year start_year) <> [] ->
  process_historical_data schedule_len fastf1 ergast order_by sort_values_desc
    current_year current_time start_year db
  = (save_ratings (sort_values_desc (run_final schedule_len fastf1 ergast order_by current_year start_year db)) current_time db,
     Return (sort_values_desc (run_final schedule_len fastf1 ergast order_by current_year start_year db))).
Proof using Type.
  intros Hne. unfold process_historical_data. fold (run_loaded order_by db).
  assert (Hraces : process_races
            (F1DataCollector.get_all_historical_data schedule_len fastf1 ergast
               start_year current_year) (run_loaded order_by db)
          = (Return tt, with_ratings (run_loaded order_by db) (run_final schedule_len fastf1 ergast order_by current_year start_year db))).
  { unfold process_races, run_final, run_events.
    rewrite <- groups_of_a_run, <- for_each_map.
    apply ec_process_events_run. }
  destruct (F1DataCollector.get_all_historical_data schedule_len fastf1 ergast
              start_year current_year) as [|r rows] eqn:E.
  - exfalso. apply Hne. unfold run_events.
    rewrite <- groups_of_a_run, E. reflexivity.
  - rewrite Hraces. reflexivity.
Qed.

Lemma run_without_data :
  (run_events schedule_len fastf1 ergast current_year start_year) = [] ->
  process_historical_data schedule_len fastf1 ergast order_by sort_values_desc
    current_year current_time start_year db
  = (db, Return (sort_values_desc (ratings (run_loaded order_by db)))).
Proof using Type.
  intros Hnil. unfold process_historical_data. fold (run_loaded order_by db).
  destruct (F1DataCollector.get_all_historical_data schedule_len fastf1 ergast
              start_year current_year) as [|r rows] eqn:E; [reflexivity|].
  exfalso.
  assert (Hk : In (key_of r) (group_keys (r :: rows))).
  { unfold group_keys. simpl.
    generalize (fold_right insert_key [] (map key_of rows)) as L.
    induction L as [|x t IH]; simpl; [now left|].
    destruct (key_ltb (key_of r) x); [now left|].
    destruct (key_eqb (key_of r) x) eqn:Ek; [|now right].
    apply key_eqb_eq in Ek. now left. }
  pose proof (groups_of_a_run schedule_len fastf1 ergast start_year current_year) as Hg.
  fold (run_events schedule_len fastf1 ergast current_year start_year) in Hg. rewrite Hnil, E in Hg.
  unfold groupby in Hg. destruct (group_keys (r :: rows)); [destruct Hk|].
  discriminate.
Qed.

Lemma to_dict_NoDup (rows : list (string * pyfloat)) :
  List.NoDup (keys (to_dict rows)).
Proof using Type.
  unfold to_dict.
  assert (H : forall acc : dict pyfloat, List.NoDup (keys acc) ->
            List.NoDup (keys (fold_left (fun d row => dict_set d (fst row) (snd row))
                                        rows acc))).
  { induction rows as [|x l IH]; intros acc Hacc; simpl; [assumption|].
    apply IH. now apply NoDup_keys_set. }
  apply H. constructor.
Qed.

Lemma run_loaded_NoDup : List.NoDup (keys (ratings (run_loaded order_by db))).
Proof using Type.
  unfold run_loaded, load_existing_ratings.
  destruct (get_ratings order_by db); simpl; [constructor|].
  apply to_dict_NoDup.
Qed.

Lemma run_final_NoDup : List.NoDup (map fst (sort_values_desc (run_final schedule_len fastf1 ergast order_by current_year start_year db))).
Proof using sort_values_perm.
  eapply Permutation_NoDup; [apply Permutation_map, sort_values_perm|].
  apply NoDup_keys_ec_process, run_loaded_NoDup.
Qed.

Lemma run_final_has_the_stored (d : string) (row : db_row) :
  db !! d = Some row -> In d (map fst (sort_values_desc (run_final schedule_len fastf1 ergast order_by current_year start_year db))).
Proof using order_by_perm sort_values_perm.
  intros Hrow.
  eapply Permutation_in; [apply Permutation_map, sort_values_perm|].
  apply In_keys_ec_process. left.
  destruct (load_reflects_the_table order_by order_by_perm db new_engine d eq_refl)
    as [_ H].
  apply dict_contains_In. unfold dict_contains. fold (run_loaded order_by db) in H.
  now rewrite (H row Hrow).
Qed.

End RunStore.

Section RunStoreTheorems.
Import DatabaseManager.

(** X18. Whenever a run that collected at least one non-empty race returns,
    that is, no exception leaves [process_historical_data], the table holds
    the returned rating of every competitor of the returned frame, every row
    of the table, the rows already there included, carries the time of this
    save, and every competitor the table had is in the returned frame. *)
Theorem a_returning_run_with_data_rewrites_every_row
    (schedule_len : Z -> option nat) (fastf1 ergast : Z -> Z -> DataFrame)
    (order_by sort_values_desc : list (string * pyfloat) -> list (string * pyfloat))
    (current_year : Z) (current_time : string) (start_year : Z) (db : table) :
  (forall l, Permutation l (order_by l)) ->
  (forall l, Permutation l (sort_values_desc l)) ->
  (forall d row, db !! d = Some row -> is_nan (elo_rating row) = false) ->
  run_events schedule_len fastf1 ergast current_year start_year <> [] ->
  forall (db' : table) (ranking : list (string * pyfloat)),
    process_historical_data schedule_len fastf1 ergast order_by sort_values_desc
      current_year current_time start_year db
    = (db', Return ranking) ->
    (forall d r, In (d, r) ranking -> db' !! d = Some (DbRow r current_time))
    /\ (forall d row, db' !! d = Some row -> last_updated row = current_time)
    /\ (forall d row, db !! d = Some row -> In d (map fst ranking)).
Proof.
  intros Hord Hsort _ Hne db' ranking Hrun.
  set (final := run_final schedule_len fastf1 ergast order_by current_year start_year db).
  rewrite (run_with_data schedule_len fastf1 ergast order_by sort_values_desc
             current_year current_time start_year db Hne) in Hrun.
  fold final in Hrun. injection Hrun as <- <-.
  split; [|split].
  - intros d r Hin. apply save_ratings_saved; [|assumption].
    now apply run_final_NoDup.
  - intros d row Hrow.
    destruct (in_dec string_dec d (map fst (sort_values_desc final))) as [Hd | Hd].
    + destruct (save_ratings_in (sort_values_desc final) current_time db d Hd)
        as [r [_ Hr]].
      rewrite Hr in Hrow. now injection Hrow as <-.
    + rewrite save_ratings_other in Hrow by assumption.
      exfalso. apply Hd. eapply run_final_has_the_stored; eauto.
  - intros d row Hrow. eapply run_final_has_the_stored; eauto.
Qed.

Lemma stored_table_finite d row :
  stored_table !! d = Some row -> is_nan (elo_rating row) = false.
Proof.
  unfold stored_table. intros H. apply lookup_singleton_Some in H.
  destruct H as [_ <-]. reflexivity.
Qed.

Lemma a_returning_run_with_data_rewrites_every_row_witness :
  exists db' ranking,
    process_historical_data one_race_schedule one_race_adaptor no_adaptor
      (fun l => l) (fun l => l) 2024 "2024-03-04T10:00:00" 2024 stored_table
    = (db', Return ranking)
    /\ (forall d row, db' !! d = Some row -> last_updated row = "2024-03-04T10:00:00").
Proof.
  assert (Hne : run_events one_race_schedule one_race_adaptor no_adaptor 2024 2024 <> [])
    by discriminate.
  pose proof (run_with_data one_race_schedule one_race_adaptor no_adaptor
                (fun l => l) (fun l => l) 2024 "2024-03-04T10:00:00" 2024
                stored_table Hne) as Hrun.
  destruct (a_returning_run_with_data_rewrites_every_row one_race_schedule
              one_race_adaptor no_adaptor (fun l => l) (fun l => l) 2024
              "2024-03-04T10:00:00" 2024 stored_table
              (fun l => Permutation_refl l) (fun l => Permutation_refl l)
              stored_table_finite Hne _ _ Hrun)
    as [_ [H2 _]].
  eexists _, _. split; [exact Hrun | exact H2].
Defined.

(** X19. A run that collected no usable race leaves the table exactly as it
    was and returns the stored ratings. *)
Theorem a_run_without_data_leaves_the_store
    (schedule_len : Z -> option nat) (fastf1 ergast : Z -> Z -> DataFrame)
    (order_by sort_values_desc : list (string * pyfloat) -> list (string * pyfloat))
    (current_year : Z) (current_time : string) (start_year : Z) (db : table) :
  (forall d row, db !! d = Some row -> is_nan (elo_rating row) = false) ->
  (forall k, In k (race_calendar schedule_len start_year current_year) ->
             collected fastf1 ergast k = []) ->
  process_historical_data schedule_len fastf1 ergast order_by sort_values_desc
    current_year current_time start_year db
  = (db, Return (sort_values_desc
                   (ratings (snd (load_existing_ratings order_by db new_engine))))).
Proof.
  intros _ Hempty. apply run_without_data.
  unfold run_events. apply filter_none. intros df Hdf.
  apply in_map_iff in Hdf. destruct Hdf as [k [<- Hk]].
  now rewrite (Hempty k Hk).
Qed.

Lemma a_run_without_data_leaves_the_store_witness :
  fst (process_historical_data no_schedule one_race_adaptor no_adaptor
         (fun l => l) (fun l => l) 2024 "2024-03-04T10:00:00" 2018 stored_table)
  = stored_table.
Proof.
  rewrite (a_run_without_data_leaves_the_store no_schedule one_race_adaptor no_adaptor
             (fun l => l) (fun l => l) 2024 "2024-03-04T10:00:00" 2018 stored_table
             stored_table_finite).
  - reflexivity.
  - intros k Hk. unfold race_calendar, no_schedule in Hk.
    apply in_flat_map in Hk. destruct Hk as [y [_ []]].
Defined.

End RunStoreTheorems.

(** ** The main page *)

Section IndexFacts.
Import DatabaseManager.

Variable schedule_len : Z -> option nat.
Variable fastf1 ergast : Z -> Z -> DataFrame.
Variable order_by sort_values_desc : list (string * pyfloat) -> list (string * pyfloat).
Variable current_year : Z.
Variable current_time : string.

Hypothesis order_by_perm : forall l, Permutation l (order_by l).
Hypothesis sort_values_perm : forall l, Permutation l (sort_values_desc l).

Lemma get_ratings_empty_iff (t : table) : get_ratings order_by t = [] <-> t = ∅.
Proof using order_by_perm.
  unfold get_ratings. split.
  - intros E. apply map_to_list_empty_iff.
    pose proof (order_by_perm (map (fun kv => (fst kv, elo_rating (snd kv)))
                                   (map_to_list t))) as Hp.
    rewrite E in Hp. apply Permutation_sym, Permutation_nil in Hp.
    now apply map_eq_nil in Hp.
  - intros ->. rewrite map_to_list_empty. simpl.
    apply Permutation_nil, order_by_perm.
Qed.

Lemma index_without_data :
  (forall k, In k (race_calendar schedule_len 2018 current_year) ->
             collected fastf1 ergast k = []) ->
  App.index schedule_len fastf1 ergast order_by sort_values_desc
    current_year current_time ∅
  = (∅, Return (App.Page [] PyNone)).
Proof using order_by_perm.
  intros Hempty. unfold App.index.
  assert (E : get_ratings order_by (∅ : table) = []) by now apply get_ratings_empty_iff.
  rewrite E. rewrite run_without_data.
  - rewrite E.
    replace (get_last_update_time (∅ : table)) with PyNone; [reflexivity|].
    unfold get_last_update_time, select_max_last_updated, max_last_updated.
    now rewrite map_to_list_empty.
  - unfold run_events. apply filter_none. intros df Hdf.
    apply in_map_iff in Hdf. destruct Hdf as [k [<- Hk]].
    now rewrite (Hempty k Hk).
Qed.

Lemma index_with_data (ev : DataFrame) :
  In ev (run_events schedule_len fastf1 ergast current_year 2018) ->
  processed ev ->
  exists db' rows,
    App.index schedule_len fastf1 ergast order_by sort_values_desc
      current_year current_time ∅
    = (db', Return (App.Page rows (PyStr current_time)))
    /\ forall d, In d (map fst rows)
                 <-> In d (keys (ec_process new_engine
                                   (run_events schedule_len fastf1 ergast
                                      current_year 2018))).
Proof using order_by_perm sort_values_perm.
  intros Hev Hproc. unfold App.index.
  assert (E : get_ratings order_by (∅ : table) = []) by now apply get_ratings_empty_iff.
  rewrite E.
  assert (Hne : run_events schedule_len fastf1 ergast current_year 2018 <> [])
    by (intros Hnil; rewrite Hnil in Hev; destruct Hev).
  rewrite run_with_data by assumption.
  set (events := run_events schedule_len fastf1 ergast current_year 2018) in *.
  set (final := run_final schedule_len fastf1 ergast order_by current_year 2018 ∅).
  assert (Hfinal : final = ec_process new_engine events).
  { unfold final, run_final, run_loaded, load_existing_ratings. now rewrite E. }
  set (ranking := sort_values_desc final).
  assert (Hkeys : forall d, In d (map fst ranking) <-> In d (keys final)).
  { intros d. unfold ranking, keys. split; apply Permutation_in.
    - apply Permutation_sym, Permutation_map, sort_values_perm.
    - apply Permutation_map, sort_values_perm. }
  assert (Hsome : ranking <> []).
  { destruct (dropna ev) as [|[d0 p0] rest] eqn:Ed.
    - unfold processed in Hproc. rewrite Ed in Hproc. simpl in Hproc. lia.
    - assert (Hd0 : In d0 (keys final)).
      { rewrite Hfinal. apply In_keys_ec_process. right. exists ev.
        split; [assumption|]. split; [assumption|].
        unfold competitors. rewrite Ed. now left. }
      apply Hkeys in Hd0. intros Hnil. rewrite Hnil in Hd0. destruct Hd0. }
  exists (save_ratings ranking current_time ∅),
         (get_ratings order_by (save_ratings ranking current_time ∅)).
  split.
  - rewrite last_update_after_save; [reflexivity | assumption|].
    intros driver row H. rewrite lookup_empty in H. discriminate.
  - intros d. rewrite <- Hfinal, <- Hkeys. split.
    + intros Hin. apply in_map_iff in Hin. destruct Hin as [[d' r] [Hd Hin]].
      simpl in Hd. subst d'.
      apply (get_ratings_rows order_by order_by_perm) in Hin.
      destruct Hin as [row [Hrow _]].
      destruct (in_dec string_dec d (map fst ranking)) as [Hd | Hd]; [assumption|].
      rewrite save_ratings_other in Hrow by assumption.
      rewrite lookup_empty in Hrow. discriminate.
    + intros Hin.
      destruct (save_ratings_in ranking current_time ∅ d Hin) as [r [_ Hr]].
      apply in_map_iff. exists (d, r). split; [reflexivity|].
      apply (get_ratings_rows order_by order_by_perm). eauto.
Qed.

Lemma fold_text_max_In (l : list string) (acc : string) :
  In (fold_left text_max l acc) (acc :: l).
Proof using Type.
  revert acc. induction l as [|b t IH]; intros acc; simpl; [now left|].
  destruct (IH (text_max acc b)) as [H | H].
  - rewrite <- H. unfold text_max.
    destruct (String.leb acc b); [right; left | left]; reflexivity.
  - right. right. exact H.
Qed.

Lemma index_with_rows (db : table) :
  db <> ∅ ->
  exists rows stamp,
    App.index schedule_len fastf1 ergast order_by sort_values_desc
      current_year current_time db
    = (db, Return (App.Page rows (PyStr stamp)))
    /\ rows = get_ratings order_by db
    /\ exists d row, db !! d = Some row /\ last_updated row = stamp.
Proof using order_by_perm.
  intros Hne. unfold App.index.
  destruct (get_ratings order_by db) as [|x l] eqn:E.
  - apply get_ratings_empty_iff in E. contradiction.
  - unfold get_last_update_time, select_max_last_updated, fetchone, max_last_updated.
    simpl.
    destruct (map (fun kv => last_updated (snd kv)) (map_to_list db)) as [|s0 l0] eqn:El.
    + apply map_eq_nil in El. apply map_to_list_empty_iff in El. contradiction.
    + exists (x :: l), (fold_left text_max l0 s0).
      split; [reflexivity|]. split; [reflexivity|].
      assert (Hin : In (fold_left text_max l0 s0)
                       (map (fun kv => last_updated (snd kv)) (map_to_list db))).
      { rewrite El. apply fold_text_max_In. }
      apply in_map_iff in Hin. destruct Hin as [[d row] [Hst Hin]].
      exists d, row. split; [|exact Hst].
      now apply elem_of_map_to_list, list_elem_of_In.
Qed.

End IndexFacts.

Section IndexTheorems.
Import DatabaseManager.

(** X20. On an empty table, when no race of the seasons from 2018 on gives a
    usable row, [index] runs the update, the table stays empty, and the page
    gets no rating and [None] as last update. *)
Theorem index_on_an_empty_store_without_data
    (schedule_len : Z -> option nat) (fastf1 ergast : Z -> Z -> DataFrame)
    (order_by sort_values_desc : list (string * pyfloat) -> list (string * pyfloat))
    (current_year : Z) (current_time : string) :
  (forall l, Permutation l (order_by l)) ->
  (forall k, In k (race_calendar schedule_len 2018 current_year) ->
             collected fastf1 ergast k = []) ->
  App.index schedule_len fastf1 ergast order_by sort_values_desc
    current_year current_time ∅
  = (∅, Return (App.Page [] PyNone)).
Proof. intros Hord. now apply index_without_data. Qed.

Lemma index_on_an_empty_store_without_data_witness :
  App.index no_schedule one_race_adaptor no_adaptor (fun l => l) (fun l => l)
    2024 "2024-03-04T10:00:00" ∅
  = (∅, Return (App.Page [] PyNone)).
Proof.
  apply index_on_an_empty_store_without_data.
  - intros l. apply Permutation_refl.
  - intros k Hk. unfold race_calendar, no_schedule in Hk.
    apply in_flat_map in Hk. destruct Hk as [y [_ []]].
Defined.

(** X21. On an empty table, when at least one collected race has two valid
    rows, [index] runs the update and the page shows the time of that save as
    last update and one row for each competitor of the final snapshot, and
    for nobody else. *)
Theorem index_on_an_empty_store_with_data
    (schedule_len : Z -> option nat) (fastf1 ergast : Z -> Z -> DataFrame)
    (order_by sort_values_desc : list (string * pyfloat) -> list (string * pyfloat))
    (current_year : Z) (current_time : string) (ev : DataFrame) :
  (forall l, Permutation l (order_by l)) ->
  (forall l, Permutation l (sort_values_desc l)) ->
  In ev (run_events schedule_len fastf1 ergast current_year 2018) ->
  processed ev ->
  exists db' rows,
    App.index schedule_len fastf1 ergast order_by sort_values_desc
      current_year current_time ∅
    = (db', Return (App.Page rows (PyStr current_time)))
    /\ forall d, In d (map fst rows)
                 <-> In d (keys (ec_process new_engine
                                   (run_events schedule_len fastf1 ergast
                                      current_year 2018))).
Proof. intros Hord Hsort. now apply index_with_data. Qed.

Lemma index_on_an_empty_store_with_data_witness :
  exists db' rows,
    App.index one_race_schedule one_race_adaptor no_adaptor (fun l => l) (fun l => l)
      2024 "2024-03-04T10:00:00" ∅
    = (db', Return (App.Page rows (PyStr "2024-03-04T10:00:00")))
    /\ (In "A" (map fst rows) /\ In "B" (map fst rows)).
Proof.
  destruct (index_on_an_empty_store_with_data one_race_schedule one_race_adaptor
              no_adaptor (fun l => l) (fun l => l) 2024 "2024-03-04T10:00:00"
              two_driver_event (fun l => Permutation_refl l)
              (fun l => Permutation_refl l))
    as [db' [rows [H1 H2]]].
  - now left.
  - unfold processed. simpl. lia.
  - exists db', rows. split; [exact H1|].
    split; apply H2; apply In_keys_ec_process; right; exists two_driver_event;
      (split; [now left|]); (split; [unfold processed; simpl; lia|]); simpl; tauto.
Defined.

(** X22. On a table that has a row, [index] starts no run and leaves the
    table as it is; the page shows the stored rows, and as last update the
    timestamp of one of the rows (never [None]). *)
Theorem index_on_a_filled_store
    (schedule_len : Z -> option nat) (fastf1 ergast : Z -> Z -> DataFrame)
    (order_by sort_values_desc : list (string * pyfloat) -> list (string * pyfloat))
    (current_year : Z) (current_time : string) (db : table) :
  (forall l, Permutation l (order_by l)) ->
  db <> ∅ ->
  exists rows stamp,
    App.index schedule_len fastf1 ergast order_by sort_values_desc
      current_year current_time db
    = (db, Return (App.Page rows (PyStr stamp)))
    /\ rows = get_ratings order_by db
    /\ exists d row, db !! d = Some row /\ last_updated row = stamp.
Proof. intros Hord. now apply index_with_rows. Qed.

Lemma index_on_a_filled_store_witness :
  exists rows stamp,
    App.index one_race_schedule one_race_adaptor no_adaptor (fun l => l) (fun l => l)
      2024 "2024-03-04T10:00:00" stored_table
    = (stored_table, Return (App.Page rows (PyStr stamp)))
    /\ stamp = "2021-12-13T10:00:00".
Proof.
  destruct (index_on_a_filled_store one_race_schedule one_race_adaptor
              no_adaptor (fun l => l) (fun l => l) 2024 "2024-03-04T10:00:00"
              stored_table (fun l => Permutation_refl l))
    as [rows [stamp [H1 [_ [d [row [H3 H4]]]]]]].
  - unfold stored_table. apply map_non_empty_singleton.
  - exists rows, stamp. split; [exact H1|].
    unfold stored_table in H3. apply lookup_singleton_Some in H3.
    destruct H3 as [_ <-]. now rewrite <- H4.
Defined.

End IndexTheorems.

(** ** elo.py: what an exception does to a season *)

Lemma for_each_raises {A} (l1 l2 : list A) (x : A) (body : A -> py unit)
    (st st1 st2 : F1EloRating) (e : exn) :
  for_each l1 body st = (Return tt, st1) ->
  body x st1 = (Raise e, st2) ->
  for_each (l1 ++ x :: l2) body st = (Raise e, st2).
Proof.
  revert st. induction l1 as [|y t IH]; intros st H1 Hx; simpl in *.
  - injection H1 as <-. unfold bind. now rewrite Hx.
  - unfold bind in *. destruct (body y st) as [[[] | e'] st'] eqn:Ey.
    + now apply IH.
    + discriminate.
Qed.

Lemma steps_try_except (R : F1EloRating -> F1EloRating -> Prop) (c : py unit) :
  steps R c -> steps R (EloMain.try_except c).
Proof.
  intros Hc st. specialize (Hc st). unfold EloMain.try_except.
  now destruct (c st) as [[[] | e] st'].
Qed.

Lemma for_each_returns {A} (l : list A) (body : A -> py unit) st :
  (forall x st', fst (body x st') = Return tt) ->
  fst (for_each l body st) = Return tt.
Proof.
  intros Hb. revert st. induction l as [|x t IH]; intros st; simpl; [reflexivity|].
  unfold bind. specialize (Hb x st). destruct (body x st) as [[[] | e] st'].
  - apply IH.
  - discriminate.
Qed.

Lemma try_except_returns (c : py unit) st :
  fst (EloMain.try_except c st) = Return tt.
Proof. unfold EloMain.try_except. now destruct (c st) as [[[] | e] st']. Qed.

(** X23. In [elo.py]'s [main], an exception raised by [update_ratings] ends
    the season: when the races [l1] of a year return and the next race
    raises, the year is left, normally, in the state that the failing call
    left, and the remaining races [l2] of that year are not processed. *)
Theorem an_exception_ends_the_season
    (schedule_len : Z -> option nat) (fastf1 ergast : Z -> Z -> DataFrame)
    (year : Z) (n : nat) (l1 l2 : list Z) (race : Z)
    (st st1 st2 : F1EloRating) (e : exn) :
  schedule_len year = Some n ->
  F1DataCollector.race_numbers n = l1 ++ race :: l2 ->
  for_each l1 (EloMain.process_race fastf1 ergast year) st = (Return tt, st1) ->
  EloMain.process_race fastf1 ergast year race st1 = (Raise e, st2) ->
  EloMain.process_year schedule_len fastf1 ergast year st = (Return tt, st2).
Proof.
  intros Hs Hl H1 Hr. unfold EloMain.process_year, EloMain.try_except.
  rewrite Hs, Hl. now rewrite (for_each_raises l1 l2 race _ st st1 st2 e H1 Hr).
Qed.

Lemma an_exception_ends_the_season_witness :
  EloMain.process_year two_race_schedule duplicate_adaptor no_adaptor 2024 new_engine
  = (Return tt, with_ratings new_engine [("A", Fin 1500%R)]).
Proof.
  apply (an_exception_ends_the_season two_race_schedule duplicate_adaptor no_adaptor
           2024 2 [] [2%Z] 1%Z new_engine new_engine _ ZeroDivisionError);
    reflexivity.
Defined.

(** X24. [elo.py]'s [main] always returns normally, whatever the adaptors
    return, and no competitor of the snapshot it starts from is missing from
    the snapshot it ends with. *)
Theorem main_returns_and_keeps_competitors
    (schedule_len : Z -> option nat) (fastf1 ergast : Z -> Z -> DataFrame)
    (self : F1EloRating) :
  fst (EloMain.main schedule_len fastf1 ergast self) = Return tt
  /\ forall k, In k (keys (ratings self)) ->
               In k (keys (ratings (snd (EloMain.main schedule_len fastf1 ergast self)))).
Proof.
  split.
  - apply for_each_returns. intros year st'. apply try_except_returns.
  - assert (Hrefl : forall st, keeps_keys st st) by (intros st x Hx; exact Hx).
    assert (Htrans : forall a b c, keeps_keys a b -> keeps_keys b c -> keeps_keys a c)
      by (intros a b c Hab Hbc x Hx; apply Hbc, Hab, Hx).
    assert (Hmain : steps keeps_keys (EloMain.main schedule_len fastf1 ergast)).
    { apply steps_for_each; auto. intros year _.
      apply steps_try_except.
      destruct (schedule_len year) as [n|]; [|now apply steps_ret].
      apply steps_for_each; auto. intros rn _. unfold EloMain.process_race.
      destruct (F1DataCollector.collect_race_results fastf1 ergast year rn) eqn:E;
        [now apply steps_ret|].
      apply steps_update_ratings; auto. intros k v _. apply keeps_keys_setitem. }
    intros k. apply Hmain.
Qed.
